(** * Fuzzy traffic-light controller and intersection simulation

    A shallow embedding of [fuzzy_controller.py] and [traffic_simulation.py].

    Numbers.  Python floats and ints are embedded as exact rationals ([Q])
    and integers ([Z]); rounding error, infinities and NaN are outside the
    model.  Every comparison of the source is a boolean test here, so all
    definitions evaluate.

    Effects.  The code prints diagnostics and may raise inside the
    controller; both are kept explicit: a computation is an [outcome]
    (returned value or raised exception) together with the list of
    [event]s it emitted.

    Layout.  Definitions come first, one module per Python class; all
    lemmas and theorems follow. *)

From Stdlib Require Import ZArith QArith Qabs Lqa Lia List String Bool Permutation.
Import ListNotations.
Local Open Scope Q_scope.

(* ================================================================== *)
(** ** Python and numpy primitives *)
(* ================================================================== *)

Module Py.

(** [a < b] as a boolean. *)
Definition ltb (a b : Q) : bool := negb (Qle_bool b a).

(** Builtin [min(a, b)] and [max(a, b)]: the first argument wins ties. *)
Definition min (a b : Q) : Q := if ltb b a then b else a.
Definition max (a b : Q) : Q := if ltb a b then b else a.

(** [np.clip(v, lo, hi)], i.e. [minimum(hi, maximum(v, lo))]. *)
Definition clip (v lo hi : Q) : Q := min hi (max v lo).

(** Nearest integer, ties to the even neighbour. *)
Definition round_half_even (q : Q) : Z :=
  let n := Qnum q in
  let d := Zpos (Qden q) in
  let f := (n / d)%Z in
  match (2 * (n mod d) ?= d)%Z with
  | Lt => f
  | Gt => (f + 1)%Z
  | Eq => if Z.even f then f else (f + 1)%Z
  end.

(** [round(v, 1)]: one decimal place, ties to even. *)
Definition round1 (v : Q) : Q := inject_Z (round_half_even (v * 10)) / 10.

(** [sum(l)]. *)
Definition sum (l : list Q) : Q := fold_right Qplus 0 l.

(** [np.arange(lo, hi, 1)] for integer bounds. *)
Definition arange (lo hi : Z) : list Q :=
  map (fun k => inject_Z (lo + Z.of_nat k)) (seq 0 (Z.to_nat (hi - lo))).

End Py.

(* ================================================================== *)
(** ** Shared vocabulary: directions, signals, observable events *)
(* ================================================================== *)

(** The two axes; the source uses the strings ['horizontal'] and
    ['vertical'], always tested as [== 'horizontal'] / else. *)
Inductive Direction := horizontal | vertical.

Definition direction_eqb (a b : Direction) : bool :=
  match a, b with
  | horizontal, horizontal | vertical, vertical => true
  | _, _ => false
  end.

(** A two-key dictionary [{'horizontal': _, 'vertical': _}]. *)
Record by_direction (A : Type) := ByDirection { at_h : A; at_v : A }.
Arguments ByDirection {A} _ _.
Arguments at_h {A} _.
Arguments at_v {A} _.

Definition get {A} (m : by_direction A) (d : Direction) : A :=
  match d with horizontal => at_h m | vertical => at_v m end.

Definition set {A} (m : by_direction A) (d : Direction) (a : A) : by_direction A :=
  match d with
  | horizontal => ByDirection a (at_v m)
  | vertical => ByDirection (at_h m) a
  end.

(** Light colours, the strings ['RED'], ['YELLOW'], ['GREEN']. *)
Inductive signal := RED | YELLOW | GREEN.

Definition signal_eqb (a b : signal) : bool :=
  match a, b with
  | RED, RED | YELLOW, YELLOW | GREEN, GREEN => true
  | _, _ => false
  end.

(** What a run lets an observer see besides the returned values:
    entries into [compute_green_time] and the two [print] statements
    (their arguments kept structured instead of formatted). *)
Inductive event :=
| ControllerCall (light_id : string) (density wait_time : Q)
| FallbackNotice (light_id : string) (e : string)
| GreenReport (d : Direction) (cars : nat) (density : Z) (avg_wait green : Q).

Definition is_controller_call (ev : event) : bool :=
  match ev with ControllerCall _ _ _ => true | _ => false end.

(** A Python call either returns or raises an [Exception] (carried as its
    message). *)
Inductive outcome (A : Type) :=
| Returned (a : A)
| Raised (e : string).
Arguments Returned {A} _.
Arguments Raised {A} _.

(** Computations: an outcome plus the events emitted on the way. *)
Definition Eff (A : Type) : Type := outcome A * list event.

Definition ret {A} (a : A) : Eff A := (Returned a, []).

Definition bind {A B} (m : Eff A) (k : A -> Eff B) : Eff B :=
  match m with
  | (Returned a, tr) => let (r, tr') := k a in (r, tr ++ tr')
  | (Raised e, tr) => (Raised e, tr)
  end.

Definition emit (ev : event) : Eff unit := (Returned tt, [ev]).

Definition lift {A} (o : outcome A) : Eff A := (o, []).

(** [try: body except Exception as e: handler e]. *)
Definition try_except {A} (body : Eff A) (handler : string -> Eff A) : Eff A :=
  match body with
  | (Returned a, tr) => (Returned a, tr)
  | (Raised e, tr) => let (r, tr') := handler e in (r, tr ++ tr')
  end.

Declare Scope eff_scope.
Delimit Scope eff_scope with eff.
Notation "x <- m ;; k" := (bind m (fun x => k))
  (at level 61, m at next level, right associativity) : eff_scope.
Notation "m ;;; k" := (bind m (fun _ => k))
  (at level 61, right associativity) : eff_scope.

(* ================================================================== *)
(** ** class TrafficLightController *)
(* ================================================================== *)

Module TrafficLightController.

Definition MIN_GREEN_TIME : Q := 15.
Definition MAX_GREEN_TIME : Q := 60.

(** The instance: its [light_id] and the skfuzzy simulation object
    built by [_setup_fuzzy_system].  The simulation object is driven
    through three statements (set both inputs, [compute()], read
    [output['green']]); together they are one fallible function of the
    two inputs. *)
Record t := Build {
  light_id : string;
  simulator : Q -> Q -> outcome Q
}.

Section Construct.
(** The control system skfuzzy builds from the membership functions
    and rules; [_setup_fuzzy_system] never reads [light_id]. *)
Variable control_system : Q -> Q -> outcome Q.

Definition _setup_fuzzy_system (_ : string) : Q -> Q -> outcome Q :=
  control_system.

Definition __init__ (light_id : string) : t :=
  Build light_id (_setup_fuzzy_system light_id).
End Construct.

Definition compute_green_time (self : t) (density wait_time : Q) : Eff Q :=
  (emit (ControllerCall (light_id self) density wait_time) ;;;
   try_except
     (let density := Py.clip density 0 100 in
      let wait_time := Py.clip wait_time 0 120 in
      raw_output <- lift (simulator self density wait_time) ;;
      let clamped_output := Py.clip raw_output MIN_GREEN_TIME MAX_GREEN_TIME in
      ret (Py.round1 clamped_output))
     (fun e =>
        emit (FallbackNotice (light_id self) e) ;;;
        ret 30))%eff.

End TrafficLightController.

(* ================================================================== *)
(** ** The inference engine behind [self.simulator] *)
(* ================================================================== *)

(** [fuzzy_controller.py] fixes the universes, the control points of the
    membership functions and the nine rules, and hands them to skfuzzy
    ([fuzz.trapmf], [fuzz.trimf], [ctrl.Rule], [ControlSystemSimulation]),
    whose code is not among the sources.  What those calls compute is
    taken from the specification's description of the Inference Engine. *)
Module InferenceEngine.

(** Modelled from the spec: [fuzz.trapmf] is missing; "0 below a, linear
    ramp a->b, 1 between b and c, linear ramp c->d, 0 above d (degenerate
    a=b or c=d yields a step)". *)
Definition trapmf (a b c d x : Q) : Q :=
  if Py.ltb x a then 0
  else if Py.ltb x b then (x - a) / (b - a)
  else if Qle_bool x c then 1
  else if Py.ltb x d then (d - x) / (d - c)
  else 0.

(** Modelled from the spec: [fuzz.trimf] is missing; "Triangle is the
    special case" of the trapezoid whose plateau is the single apex. *)
Definition trimf (a b c x : Q) : Q := trapmf a b b c x.

(** Universes, [_setup_fuzzy_system]. *)
Definition density_universe : list Q := Py.arange 0 101.
Definition wait_universe : list Q := Py.arange 0 121.
Definition green_universe : list Q := Py.arange 5 91.

(** Term names per variable. *)
Inductive density_term := d_low | d_medium | d_high.
Inductive wait_term := w_short | w_medium | w_long.
Inductive green_term := g_short | g_medium | g_long.

Definition green_term_eqb (a b : green_term) : bool :=
  match a, b with
  | g_short, g_short | g_medium, g_medium | g_long, g_long => true
  | _, _ => false
  end.

(** Control points, [_define_membership_functions]. *)
Definition density_mf (t : density_term) : Q -> Q :=
  match t with
  | d_low => trapmf 0 0 25 45
  | d_medium => trimf 25 50 75
  | d_high => trapmf 55 75 100 100
  end.

Definition wait_mf (t : wait_term) : Q -> Q :=
  match t with
  | w_short => trapmf 0 0 30 50
  | w_medium => trimf 30 60 90
  | w_long => trapmf 70 90 120 120
  end.

Definition green_mf (t : green_term) : Q -> Q :=
  match t with
  | g_short => trapmf 5 5 20 35
  | g_medium => trimf 20 40 60
  | g_long => trapmf 45 60 90 90
  end.

(** [ctrl.Rule(density[a] & wait[b], green[c])]. *)
Record Rule := mkRule {
  if_density : density_term;
  if_wait : wait_term;
  then_green : green_term
}.

(** The rule base, [_create_fuzzy_rules], in source order. *)
Definition _create_fuzzy_rules : list Rule :=
  [ mkRule d_low w_short g_short;
    mkRule d_low w_medium g_medium;
    mkRule d_low w_long g_medium;
    mkRule d_medium w_short g_medium;
    mkRule d_medium w_medium g_medium;
    mkRule d_medium w_long g_long;
    mkRule d_high w_short g_long;
    mkRule d_high w_medium g_long;
    mkRule d_high w_long g_long ].

(** Modelled from the spec: rule evaluation is missing; "strength =
    min(density-term-degree, wait-term-degree)". *)
Definition rule_strength (density wait : Q) (r : Rule) : Q :=
  Py.min (density_mf (if_density r) density) (wait_mf (if_wait r) wait).

(** Modelled from the spec: the combination of rules sharing a consequent
    is missing; they "combine via maximum, not sum". *)
Definition term_strength (density wait : Q) (g : green_term) : Q :=
  fold_left
    (fun acc r =>
       if green_term_eqb (then_green r) g
       then Py.max acc (rule_strength density wait r)
       else acc)
    _create_fuzzy_rules 0.

(** Modelled from the spec: aggregation is missing; each output term's
    membership function is clipped at its strength and "the aggregated
    curve at each universe point = max over the (possibly clipped)
    contributing term curves". *)
Definition clipped (s : Q) (g : green_term) (x : Q) : Q :=
  Py.min s (green_mf g x).

Definition aggregate (s_short s_medium s_long : Q) (x : Q) : Q :=
  Py.max (Py.max (clipped s_short g_short x) (clipped s_medium g_medium x))
         (clipped s_long g_long x).

Definition aggregated (density wait : Q) : Q -> Q :=
  aggregate (term_strength density wait g_short)
            (term_strength density wait g_medium)
            (term_strength density wait g_long).

(** Midpoint of the green universe [5, 90]. *)
Definition green_midpoint : Q := (5 + 90) / 2.

(** Modelled from the spec: centroid defuzzification is missing; "crisp
    output = sum(universe_point * aggregated_degree) /
    sum(aggregated_degree) over the discretized green universe.  If the
    denominator is zero ... fall back to the midpoint of the green
    universe". *)
Definition defuzzify (mu : Q -> Q) : Q :=
  let num := Py.sum (map (fun x => x * mu x) green_universe) in
  let den := Py.sum (map mu green_universe) in
  if Qeq_bool den 0 then green_midpoint else num / den.

(** Modelled from the spec: [infer(density, wait) -> green]. *)
Definition infer (density wait : Q) : Q := defuzzify (aggregated density wait).

(** The engine as the simulation object a controller holds: it never
    raises. *)
Definition control_system (density wait : Q) : outcome Q :=
  Returned (infer density wait).

(** A controller running on this engine. *)
Definition controller (light_id : string) : TrafficLightController.t :=
  TrafficLightController.__init__ control_system light_id.

End InferenceEngine.

(* ================================================================== *)
(** ** class Car *)
(* ================================================================== *)

(** Lane names, the strings ['east'], ['west'], ['north'], ['south']. *)
Inductive lane_name := east | west | north | south.

Module Car.

Definition WIDTH : Q := 30.
Definition HEIGHT : Q := 20.
Definition MIN_SPACING : Q := 40.
Definition STOP_LINE_OFFSET : Q := 50.
Definition MAX_SPEED : Q := 2.5.

Record t := Build {
  lane : lane_name;
  id : Z;
  direction : Direction;
  speed : Q;
  waiting_time : Q;
  passed_intersection : bool;
  color : nat;
  x : Q;
  y : Q;
  max_speed : Q
}.

(** Field assignments [self.f = v]. *)
Definition set_speed (v : Q) (c : t) : t :=
  Build (lane c) (id c) (direction c) v (waiting_time c)
        (passed_intersection c) (color c) (x c) (y c) (max_speed c).
Definition set_waiting_time (v : Q) (c : t) : t :=
  Build (lane c) (id c) (direction c) (speed c) v
        (passed_intersection c) (color c) (x c) (y c) (max_speed c).
Definition set_passed_intersection (v : bool) (c : t) : t :=
  Build (lane c) (id c) (direction c) (speed c) (waiting_time c)
        v (color c) (x c) (y c) (max_speed c).
Definition set_x (v : Q) (c : t) : t :=
  Build (lane c) (id c) (direction c) (speed c) (waiting_time c)
        (passed_intersection c) (color c) v (y c) (max_speed c).
Definition set_y (v : Q) (c : t) : t :=
  Build (lane c) (id c) (direction c) (speed c) (waiting_time c)
        (passed_intersection c) (color c) (x c) v (max_speed c).

(** [_set_initial_position]; [spawn_offset] is the value drawn by
    [random.randint(0, 300)].  Returns [(x, y, max_speed)]. *)
Definition _set_initial_position (direction : Direction) (lane : lane_name)
           (spawn_offset : Z) : Q * Q * Q :=
  match direction with
  | horizontal =>
      match lane with
      | east => (-100 - inject_Z spawn_offset, 340, MAX_SPEED)
      | _ => (1100 + inject_Z spawn_offset, 360, - MAX_SPEED)
      end
  | vertical =>
      match lane with
      | north => (460, -100 - inject_Z spawn_offset, MAX_SPEED)
      | _ => (490, 800 + inject_Z spawn_offset, - MAX_SPEED)
      end
  end.

(** [Car(lane, car_id, direction)]; [color] is the index picked by
    [_random_color] and [spawn_offset] the integer drawn afterwards. *)
Definition __init__ (lane : lane_name) (car_id : Z) (direction : Direction)
           (color : nat) (spawn_offset : Z) : t :=
  let '(x0, y0, ms) := _set_initial_position direction lane spawn_offset in
  Build lane car_id direction 0 0 false color x0 y0 ms.

Definition get_stop_line_position (self : t) : Q :=
  match direction self with
  | horizontal =>
      if Py.ltb 0 (max_speed self) then 400 - STOP_LINE_OFFSET
      else 550 + STOP_LINE_OFFSET
  | vertical =>
      if Py.ltb 0 (max_speed self) then 300 - STOP_LINE_OFFSET
      else 400 + STOP_LINE_OFFSET
  end.

(** The body of the [for other in cars] loop for one [other]: [true]
    when the loop returns [True] at this element. *)
Definition too_close_to (self other : t) : bool :=
  if Z.eqb (id other) (id self)
     || negb (direction_eqb (direction other) (direction self))
  then false
  else
    match direction self with
    | horizontal =>
        let same_lane := Py.ltb (Qabs (y other - y self)) 10 in
        let ahead :=
          if Py.ltb 0 (max_speed self)
          then Py.ltb (x self) (x other) && Py.ltb (x other - x self) MIN_SPACING
          else Py.ltb (x other) (x self) && Py.ltb (x self - x other) MIN_SPACING in
        same_lane && ahead
    | vertical =>
        let same_lane := Py.ltb (Qabs (x other - x self)) 10 in
        let ahead :=
          if Py.ltb 0 (max_speed self)
          then Py.ltb (y self) (y other) && Py.ltb (y other - y self) MIN_SPACING
          else Py.ltb (y other) (y self) && Py.ltb (y self - y other) MIN_SPACING in
        same_lane && ahead
    end.

Fixpoint is_too_close_to_car_ahead (self : t) (cars : list t) : bool :=
  match cars with
  | [] => false
  | other :: rest =>
      if too_close_to self other then true
      else is_too_close_to_car_ahead self rest
  end.

Definition is_in_intersection (self : t) : bool :=
  (Qle_bool 400 (x self) && Qle_bool (x self) 550)
  && (Qle_bool 300 (y self) && Qle_bool (y self) 400).

Definition should_stop_for_light (self : t) (light_state : signal) : bool :=
  if signal_eqb light_state GREEN then false
  else
    let stop_line := get_stop_line_position self in
    match direction self with
    | horizontal =>
        if Py.ltb 0 (max_speed self)
        then Qle_bool stop_line (x self) && Qle_bool (x self) 400
        else Qle_bool 550 (x self) && Qle_bool (x self) stop_line
    | vertical =>
        if Py.ltb 0 (max_speed self)
        then Qle_bool stop_line (y self) && Qle_bool (y self) 300
        else Qle_bool 400 (y self) && Qle_bool (y self) stop_line
    end.

(** The first statement of [update]. *)
Definition mark_passed (self : t) : t :=
  if negb (passed_intersection self) && is_in_intersection self
  then set_passed_intersection true self
  else self.

(** [should_stop] as [update] evaluates it, after [mark_passed]. *)
Definition should_stop (self : t) (light_state : signal) (cars : list t) : bool :=
  should_stop_for_light self light_state || is_too_close_to_car_ahead self cars.

(** [update(light_state, cars)]; the mutated object is the result. *)
Definition update (self : t) (light_state : signal) (cars : list t) : t :=
  let self := mark_passed self in
  let self :=
    if should_stop self light_state cars then
      let self := set_speed 0 self in
      if negb (passed_intersection self)
      then set_waiting_time (waiting_time self + 0.1) self
      else self
    else set_speed (max_speed self) self in
  match direction self with
  | horizontal => set_x (x self + speed self) self
  | vertical => set_y (y self + speed self) self
  end.

Definition is_off_screen (self : t) : bool :=
  let buffer := 200 in
  match direction self with
  | horizontal => Py.ltb (x self) (- buffer) || Py.ltb (1000 + buffer) (x self)
  | vertical => Py.ltb (y self) (- buffer) || Py.ltb (700 + buffer) (y self)
  end.

End Car.

(* ================================================================== *)
(** ** class TrafficLight (the displayed state only) *)
(* ================================================================== *)

Module TrafficLight.

Record t := Build { state : signal; time_remaining : Q }.

Definition __init__ : t := Build RED 0.

Definition update (state : signal) (time_remaining : Q) : t :=
  Build state (Py.max 0 time_remaining).

End TrafficLight.

(* ================================================================== *)
(** ** class TrafficSimulation *)
(* ================================================================== *)

Module TrafficSimulation.

(** The simulation state of [__init__] (window, fonts and colours are
    rendering only and left out). *)
Record t := Build {
  controller_h : TrafficLightController.t;
  controller_v : TrafficLightController.t;
  lights : by_direction TrafficLight.t;
  cars : list Car.t;
  next_car_id : Z;
  light_state : by_direction signal;
  light_timer : Q;
  current_green_duration : Q;
  yellow_duration : Q;
  spawn_rates : by_direction Q;
  last_spawn : by_direction Z
}.

Definition set_lights (v : by_direction TrafficLight.t) (s : t) : t :=
  Build (controller_h s) (controller_v s) v (cars s) (next_car_id s)
        (light_state s) (light_timer s) (current_green_duration s)
        (yellow_duration s) (spawn_rates s) (last_spawn s).
Definition set_cars (v : list Car.t) (s : t) : t :=
  Build (controller_h s) (controller_v s) (lights s) v (next_car_id s)
        (light_state s) (light_timer s) (current_green_duration s)
        (yellow_duration s) (spawn_rates s) (last_spawn s).
Definition set_next_car_id (v : Z) (s : t) : t :=
  Build (controller_h s) (controller_v s) (lights s) (cars s) v
        (light_state s) (light_timer s) (current_green_duration s)
        (yellow_duration s) (spawn_rates s) (last_spawn s).
Definition set_light_state (v : by_direction signal) (s : t) : t :=
  Build (controller_h s) (controller_v s) (lights s) (cars s) (next_car_id s)
        v (light_timer s) (current_green_duration s)
        (yellow_duration s) (spawn_rates s) (last_spawn s).
Definition set_light_timer (v : Q) (s : t) : t :=
  Build (controller_h s) (controller_v s) (lights s) (cars s) (next_car_id s)
        (light_state s) v (current_green_duration s)
        (yellow_duration s) (spawn_rates s) (last_spawn s).
Definition set_current_green_duration (v : Q) (s : t) : t :=
  Build (controller_h s) (controller_v s) (lights s) (cars s) (next_car_id s)
        (light_state s) (light_timer s) v
        (yellow_duration s) (spawn_rates s) (last_spawn s).
Definition set_last_spawn (v : by_direction Z) (s : t) : t :=
  Build (controller_h s) (controller_v s) (lights s) (cars s) (next_car_id s)
        (light_state s) (light_timer s) (current_green_duration s)
        (yellow_duration s) (spawn_rates s) v.

(** [__init__]; [control_system] is what skfuzzy builds for a
    controller, [rates] the two [random.uniform(0.03, 0.12)] draws. *)
Definition __init__ (control_system : Q -> Q -> outcome Q)
           (rates : by_direction Q) : t :=
  Build (TrafficLightController.__init__ control_system "horizontal")
        (TrafficLightController.__init__ control_system "vertical")
        (ByDirection TrafficLight.__init__ TrafficLight.__init__)
        [] 0%Z
        (ByDirection GREEN RED)
        0 30 4
        rates
        (ByDirection 0%Z 0%Z).

(** The random values one iteration of the loop in [generate_traffic]
    may consume: [random.random()], the index taken by [random.choice]
    among the two lanes, the colour index and the spawn offset. *)
Record draw := Draw {
  chance : Q;
  second_lane : bool;
  color_pick : nat;
  offset_pick : Z
}.

(** The coordinate along the travel axis. *)
Definition along (d : Direction) (c : Car.t) : Q :=
  match d with horizontal => Car.x c | vertical => Car.y c end.

Fixpoint spawn_blocked_by (cars : list Car.t) (new_car : Car.t) : bool :=
  match cars with
  | [] => false
  | car :: rest =>
      if negb (direction_eqb (Car.direction car) (Car.direction new_car))
      then spawn_blocked_by rest new_car
      else
        let distance :=
          Qabs (along (Car.direction new_car) car
                - along (Car.direction new_car) new_car) in
        if Py.ltb distance (Car.MIN_SPACING * 2) then true
        else spawn_blocked_by rest new_car
  end.

Definition _is_spawn_blocked (self : t) (new_car : Car.t) : bool :=
  spawn_blocked_by (cars self) new_car.

(** One iteration of [for direction in ['horizontal', 'vertical']]. *)
Definition generate_traffic_for (current_time : Z) (dr : draw)
           (self : t) (direction : Direction) : t :=
  let time_since_last := (current_time - get (last_spawn self) direction)%Z in
  if Py.ltb (chance dr) (get (spawn_rates self) direction)
     && Z.ltb 500 time_since_last
  then
    let lane :=
      match direction with
      | horizontal => if second_lane dr then west else east
      | vertical => if second_lane dr then south else north
      end in
    let new_car :=
      Car.__init__ lane (next_car_id self) direction
                   (color_pick dr) (offset_pick dr) in
    if negb (_is_spawn_blocked self new_car) then
      let self := set_cars (cars self ++ [new_car]) self in
      let self := set_next_car_id (next_car_id self + 1)%Z self in
      set_last_spawn (set (last_spawn self) direction current_time) self
    else self
  else self.

(** [generate_traffic]; [current_time] is [pygame.time.get_ticks()]. *)
Definition generate_traffic (current_time : Z) (draws : by_direction draw)
           (self : t) : t :=
  fold_left
    (fun self direction =>
       generate_traffic_for current_time (get draws direction) self direction)
    [horizontal; vertical] self.

(** The vehicles [_calculate_green_time] counts for [direction]. *)
Definition pending (direction : Direction) (c : Car.t) : bool :=
  direction_eqb (Car.direction c) direction && negb (Car.passed_intersection c).

Definition _calculate_green_time (self : t) (direction : Direction) : Eff t :=
  let direction_cars := filter (pending direction) (cars self) in
  match direction_cars with
  | _ :: _ =>
      let n := Z.of_nat (List.length direction_cars) in
      let density := Z.min 100 (n * 10) in
      let avg_wait :=
        Py.sum (map Car.waiting_time direction_cars) / inject_Z n in
      let controller :=
        match direction with
        | horizontal => controller_h self
        | vertical => controller_v self
        end in
      (green <- TrafficLightController.compute_green_time
                  controller (inject_Z density) avg_wait ;;
       let self := set_current_green_duration green self in
       emit (GreenReport direction (List.length direction_cars) density avg_wait
                         (current_green_duration self)) ;;;
       ret self)%eff
  | [] => ret (set_current_green_duration 20 self)
  end.

(** The display refresh at the top of [update_lights]. *)
Definition refresh_display (self : t) (direction : Direction) : t :=
  let st := get (light_state self) direction in
  let time_remaining :=
    match st with
    | GREEN => current_green_duration self - light_timer self
    | YELLOW => yellow_duration self - light_timer self
    | RED => 0
    end in
  set_lights
    (set (lights self) direction
         (TrafficLight.update st (Py.max 0 time_remaining)))
    self.

Definition update_lights (self : t) : Eff t :=
  let self := set_light_timer (light_timer self + 0.1) self in
  let self := fold_left refresh_display [horizontal; vertical] self in
  if signal_eqb (get (light_state self) horizontal) GREEN
     && Qle_bool (current_green_duration self) (light_timer self)
  then
    let self := set_light_state (set (light_state self) horizontal YELLOW) self in
    ret (set_light_timer 0 self)
  else if signal_eqb (get (light_state self) horizontal) YELLOW
          && Qle_bool (yellow_duration self) (light_timer self)
  then
    let self := set_light_state (set (light_state self) horizontal RED) self in
    let self := set_light_state (set (light_state self) vertical GREEN) self in
    let self := set_light_timer 0 self in
    _calculate_green_time self vertical
  else if signal_eqb (get (light_state self) vertical) GREEN
          && Qle_bool (current_green_duration self) (light_timer self)
  then
    let self := set_light_state (set (light_state self) vertical YELLOW) self in
    ret (set_light_timer 0 self)
  else if signal_eqb (get (light_state self) vertical) YELLOW
          && Qle_bool (yellow_duration self) (light_timer self)
  then
    let self := set_light_state (set (light_state self) vertical RED) self in
    let self := set_light_state (set (light_state self) horizontal GREEN) self in
    let self := set_light_timer 0 self in
    _calculate_green_time self horizontal
  else ret self.

(** The loop of [update_cars].  The iteration runs over the copy
    [self.cars[:]], whose elements are the very objects of [self.cars]:
    [car.update] mutates them in place and [self.cars.remove(car)]
    deletes from the live list.  At any moment the live list is
    [done ++ todo]: [done] holds the vehicles already visited and kept,
    as they are now, [todo] those not yet visited.  ([update] skips the
    entry with its own id, so it is immaterial that the entry for [car]
    in the list passed is read before its own mutation.) *)
Fixpoint update_cars_loop (ls : by_direction signal)
         (done todo : list Car.t) : list Car.t :=
  match todo with
  | [] => done
  | car :: rest =>
      let car' := Car.update car (get ls (Car.direction car))
                             (done ++ car :: rest) in
      if Car.is_off_screen car'
      then update_cars_loop ls done rest
      else update_cars_loop ls (done ++ [car']) rest
  end.

Definition update_cars (self : t) : t :=
  set_cars (update_cars_loop (light_state self) [] (cars self)) self.

(** Reference update, following the specification's words rather than
    the source: "all vehicles check neighbors against positions prior to
    this tick's update", then off-screen vehicles are pruned. *)
Definition update_cars_snapshot (self : t) : t :=
  let previous := cars self in
  let moved :=
    map (fun car => Car.update car (get (light_state self) (Car.direction car))
                               previous)
        previous in
  set_cars (filter (fun car => negb (Car.is_off_screen car)) moved) self.

(** The simulation part of one pass of the loop in [run]. *)
Definition tick (current_time : Z) (draws : by_direction draw) (self : t) : Eff t :=
  let self := generate_traffic current_time draws self in
  (self <- update_lights self ;;
   ret (update_cars self))%eff.

(** States the simulation can be in: the initial one and whatever the
    three update phases make of a reachable one. *)
Inductive reachable (control_system : Q -> Q -> outcome Q) : t -> Prop :=
| reach_init rates :
    reachable control_system (__init__ control_system rates)
| reach_generate s current_time draws :
    reachable control_system s ->
    reachable control_system (generate_traffic current_time draws s)
| reach_lights s s' tr :
    reachable control_system s ->
    update_lights s = (Returned s', tr) ->
    reachable control_system s'
| reach_cars s :
    reachable control_system s ->
    reachable control_system (update_cars s).

(** Exactly one axis shows GREEN or YELLOW and the other shows RED. *)
Definition exclusive (ls : by_direction signal) : Prop :=
  (at_h ls <> RED /\ at_v ls = RED) \/ (at_h ls = RED /\ at_v ls <> RED).

End TrafficSimulation.

(** A car's history: its [update] under a sequence of environments, one
    (light state, vehicle list) pair per tick. *)
Fixpoint car_after (c : Car.t) (envs : list (signal * list Car.t)) : Car.t :=
  match envs with
  | [] => c
  | (ls, cars) :: rest => car_after (Car.update c ls cars) rest
  end.

(** Erasing the instance name from an event. *)
Definition anonymous (ev : event) : event :=
  match ev with
  | ControllerCall _ d w => ControllerCall "" d w
  | FallbackNotice _ e => FallbackNotice "" e
  | GreenReport d n k w g => GreenReport d n k w g
  end.

(* ================================================================== *)
(** ** Auxiliary notions used by the statements below *)
(* ================================================================== *)

Module TS := TrafficSimulation.

(** The state [update_lights] works on once the timer has advanced and
    both displays are refreshed. *)
Definition advanced (s : TS.t) : TS.t :=
  fold_left TS.refresh_display [horizontal; vertical]
            (TS.set_light_timer (TS.light_timer s + 0.1) s).

(** The transition taken by [update_lights], as a relation between the
    light states before and after, with the direction (if any) whose green
    duration is recomputed. *)
Inductive transition : by_direction signal -> by_direction signal ->
                       option Direction -> Prop :=
| h_green_to_yellow ls :
    at_h ls = GREEN ->
    transition ls (set ls horizontal YELLOW) None
| h_yellow_to_red ls :
    at_h ls = YELLOW ->
    transition ls (set (set ls horizontal RED) vertical GREEN) (Some vertical)
| v_green_to_yellow ls :
    at_v ls = GREEN ->
    transition ls (set ls vertical YELLOW) None
| v_yellow_to_red ls :
    at_v ls = YELLOW ->
    transition ls (set (set ls vertical RED) horizontal GREEN) (Some horizontal)
| no_change ls :
    transition ls ls None.


(** A vehicle updated against the list [everyone], and the vehicles of
    [l] that remain on screen after such an update. *)
Definition moved_against (ls : by_direction signal) (everyone : list Car.t)
           (c : Car.t) : Car.t :=
  Car.update c (get ls (Car.direction c)) everyone.

Definition kept_after (ls : by_direction signal) (everyone l : list Car.t)
  : list Car.t :=
  filter (fun c => negb (Car.is_off_screen c)) (map (moved_against ls everyone) l).

(** The fold of [term_strength] over any list of rules, from any start. *)
Definition strength_fold (d w : Q) (g : InferenceEngine.green_term)
           (rules : list InferenceEngine.Rule) (acc : Q) : Q :=
  fold_left
    (fun acc r =>
       if InferenceEngine.green_term_eqb (InferenceEngine.then_green r) g
       then Py.max acc (InferenceEngine.rule_strength d w r) else acc)
    rules acc.

(** The weight [x - 60] of the universe points on which the long term is
    not zero, and no weight elsewhere. *)
Definition long_weight (x : Q) : Q := if Qle_bool x 45 then 0 else x - 60.

(** The condition under which the in-place loop of [update_cars] cannot be
    told apart from an update against a snapshot: the update of a vehicle
    is not noticed by the vehicles that come after it in the list.  For
    every vehicle [car] and every [other] before it, [car] judges [other]
    the same at its updated position as at its previous one; and when
    [other] is dropped as off screen, [car] did not judge it too close.
    [everyone] is the list at the start of the tick, [earlier] the part
    already walked. *)
Fixpoint earlier_moves_unnoticed (ls : by_direction signal) (everyone : list Car.t)
         (earlier todo : list Car.t) : bool :=
  match todo with
  | [] => true
  | car :: rest =>
      forallb
        (fun other =>
           let other' := moved_against ls everyone other in
           if Car.is_off_screen other'
           then negb (Car.too_close_to car other)
           else Bool.eqb (Car.too_close_to car other') (Car.too_close_to car other))
        earlier
      && earlier_moves_unnoticed ls everyone (earlier ++ [car]) rest
  end.

(** *** Concrete situations used as examples *)

(** A west-bound vehicle near the left edge, and an east-bound vehicle
    about to be spawned at the same abscissa in the other lane. *)
Definition westbound_leaving : Car.t :=
  Car.Build west 0 horizontal (-2.5) 3 true 0 (-150) 360 (-2.5).

Definition eastbound_request : TS.draw := TS.Draw 0 false 0 50.

(** A simulation whose simulation object always answers 42, holding the
    given vehicles. *)
Definition sample_simulation (cars : list Car.t) : TS.t :=
  TS.set_cars cars
    (TS.__init__ (fun _ _ => Returned 42) (ByDirection 0.05 0.05)).

(** Two east-bound vehicles in the same lane, 39 units apart: the leader
    on the stop line, the follower behind it. *)
Definition leader : Car.t :=
  Car.Build east 0 horizontal 0 12 false 0 350 340 2.5.
Definition follower : Car.t :=
  Car.Build east 1 horizontal 0 9 false 0 311 340 2.5.

(** A controller whose simulation object always raises. *)
Definition failing_controller : TrafficLightController.t :=
  TrafficLightController.Build
    "horizontal" (fun _ _ => Raised "Total area is zero in defuzzification!").

(** The end of a horizontal YELLOW phase with one vertical vehicle that
    has waited 7 seconds: the next [update_lights] turns vertical GREEN. *)
Definition waiting_northbound : Car.t :=
  Car.Build north 0 vertical 0 7 false 0 460 200 2.5.

Definition yellow_phase_end : TS.t :=
  TS.set_light_timer 3.95
    (TS.set_light_state (ByDirection YELLOW RED)
       (sample_simulation [waiting_northbound])).

Definition after_yellow_phase : TS.t :=
  match fst (TS.update_lights yellow_phase_end) with
  | Returned s => s
  | Raised _ => yellow_phase_end
  end.

(* ================================================================== *)
(** ** Notions for the further properties *)
(* ================================================================== *)

(** The four phases of the intersection, in cyclic order. *)
Inductive phase := H_GREEN | H_YELLOW | V_GREEN | V_YELLOW.

Definition next_phase (p : phase) : phase :=
  match p with
  | H_GREEN => H_YELLOW
  | H_YELLOW => V_GREEN
  | V_GREEN => V_YELLOW
  | V_YELLOW => H_GREEN
  end.

Definition lights_of (p : phase) : by_direction signal :=
  match p with
  | H_GREEN => ByDirection GREEN RED
  | H_YELLOW => ByDirection YELLOW RED
  | V_GREEN => ByDirection RED GREEN
  | V_YELLOW => ByDirection RED YELLOW
  end.

(** How long the phase lasts in state [s]. *)
Definition phase_duration (s : TS.t) (p : phase) : Q :=
  match p with
  | H_GREEN | V_GREEN => TS.current_green_duration s
  | H_YELLOW | V_YELLOW => TS.yellow_duration s
  end.

(** Identifiers are pairwise distinct and all below the next one to be
    handed out. *)
Definition ids_fresh (s : TS.t) : Prop :=
  NoDup (map Car.id (TS.cars s))
  /\ forall c, In c (TS.cars s) -> (Car.id c < TS.next_car_id s)%Z.

(** The vehicle has not gone beyond the far end of its stop band. *)
Definition before_stop_line (c : Car.t) : bool :=
  match Car.direction c with
  | horizontal =>
      if Py.ltb 0 (Car.max_speed c) then Qle_bool (Car.x c) 400
      else Qle_bool 550 (Car.x c)
  | vertical =>
      if Py.ltb 0 (Car.max_speed c) then Qle_bool (Car.y c) 300
      else Qle_bool 400 (Car.y c)
  end.

(** Distance from [f] to [l] along the travel axis of [f], counted in the
    sense in which [f] travels; and the lane test of
    [is_too_close_to_car_ahead]. *)
Definition headway (f l : Car.t) : Q :=
  if Py.ltb 0 (Car.max_speed f)
  then TS.along (Car.direction f) l - TS.along (Car.direction f) f
  else TS.along (Car.direction f) f - TS.along (Car.direction f) l.

Definition same_lane (f l : Car.t) : bool :=
  match Car.direction f with
  | horizontal => Py.ltb (Qabs (Car.y l - Car.y f)) 10
  | vertical => Py.ltb (Qabs (Car.x l - Car.x f)) 10
  end.

(** The coordinate across the travel axis. *)
Definition across (d : Direction) (c : Car.t) : Q :=
  match d with horizontal => Car.y c | vertical => Car.x c end.

(** The time shown on a display for state [st] once the timer reads
    [timer]. *)
Definition shown_time (s : TS.t) (st : signal) (timer : Q) : Q :=
  match st with
  | GREEN => TS.current_green_duration s - timer
  | YELLOW => TS.yellow_duration s - timer
  | RED => 0
  end.

(** The order of the linguistic terms on their axes. *)
Definition density_rank (t : InferenceEngine.density_term) : nat :=
  match t with
  | InferenceEngine.d_low => 0
  | InferenceEngine.d_medium => 1
  | InferenceEngine.d_high => 2
  end.

Definition wait_rank (t : InferenceEngine.wait_term) : nat :=
  match t with
  | InferenceEngine.w_short => 0
  | InferenceEngine.w_medium => 1
  | InferenceEngine.w_long => 2
  end.

Definition green_rank (t : InferenceEngine.green_term) : nat :=
  match t with
  | InferenceEngine.g_short => 0
  | InferenceEngine.g_medium => 1
  | InferenceEngine.g_long => 2
  end.

(** *** Further concrete situations *)

(** An east-bound vehicle one unit short of its stop band, and three ticks
    during which its light is never GREEN. *)
Definition approaching : Car.t :=
  Car.Build east 2 horizontal 2.5 0 false 0 349 340 2.5.

Definition three_ticks_without_green : list (signal * list Car.t) :=
  [(RED, []); (YELLOW, []); (RED, [])].

(** The simulation as constructed, with a simulation object that always
    answers 42. *)
Definition first_state : TS.t :=
  TS.__init__ (fun _ _ => Returned 42) (ByDirection 0.05 0.05).

Definition steady_controller : TrafficLightController.t :=
  TrafficLightController.__init__ (fun _ _ => Returned 42) "demo".

(* ================================================================== *)
(** ** Defuzzification failing, and longer runs *)
(* ================================================================== *)



(** The queue of [leader] and [follower] standing at a horizontal RED. *)
Definition queue_at_red : TS.t :=
  TS.set_light_state (ByDirection RED GREEN) (sample_simulation [leader; follower]).

(** [n] calls of [update_lights] in a row. *)
Fixpoint lights_steps (n : nat) (s : TS.t) : TS.t :=
  match n with
  | O => s
  | S n' =>
      let before := lights_steps n' s in
      match fst (TS.update_lights before) with
      | Returned after => after
      | Raised _ => before
      end
  end.

(** The simulation after a first [generate_traffic] in which both
    directions spawn a vehicle (identifiers 0 and 1). *)
Definition both_spawn : by_direction TS.draw :=
  ByDirection (TS.Draw 0 false 0 50) (TS.Draw 0 false 1 60).

Definition busy_state : TS.t := TS.generate_traffic 1000 both_spawn first_state.

(** The same simulation at the last tick of the first horizontal YELLOW
    phase (300 ticks of GREEN, 39 of YELLOW), and one tick later, when
    vertical has turned GREEN. *)
Definition end_of_first_yellow : TS.t := lights_steps 339 busy_state.

Definition start_of_vertical_green : TS.t := lights_steps 340 busy_state.


(* ================================================================== *)
(** * Properties *)
(* ================================================================== *)

(** ** Arithmetic of the primitives *)

Lemma ltb_true (a b : Q) : Py.ltb a b = true <-> a < b.
Proof.
  unfold Py.ltb. rewrite negb_true_iff.
  split; intro H.
  - apply Qnot_le_lt. intro Hle. apply Qle_bool_iff in Hle. congruence.
  - destruct (Qle_bool b a) eqn:E; [|reflexivity].
    apply Qle_bool_iff in E. exfalso. apply (Qlt_not_le _ _ H E).
Qed.

Lemma ltb_false (a b : Q) : Py.ltb a b = false <-> b <= a.
Proof.
  unfold Py.ltb. rewrite negb_false_iff. apply Qle_bool_iff.
Qed.

Lemma leb_false (a b : Q) : Qle_bool a b = false <-> b < a.
Proof.
  rewrite <- ltb_true. unfold Py.ltb.
  destruct (Qle_bool a b); simpl; split; congruence.
Qed.

(** Case analysis on the next comparison in the goal, leaving the
    corresponding order fact in the context. *)
Ltac split_cmp :=
  match goal with
  | |- context [Py.ltb ?a ?b] =>
      let E := fresh "E" in
      destruct (Py.ltb a b) eqn:E;
      [apply ltb_true in E | apply ltb_false in E]
  | |- context [Qle_bool ?a ?b] =>
      let E := fresh "E" in
      destruct (Qle_bool a b) eqn:E;
      [apply Qle_bool_iff in E | apply leb_false in E]
  end.

Lemma min_le_l (a b : Q) : Py.min a b <= a.
Proof. unfold Py.min. split_cmp; lra. Qed.

Lemma min_le_r (a b : Q) : Py.min a b <= b.
Proof. unfold Py.min. split_cmp; lra. Qed.

Lemma min_glb (a b c : Q) : c <= a -> c <= b -> c <= Py.min a b.
Proof. intros. unfold Py.min. split_cmp; lra. Qed.

Lemma max_ge_l (a b : Q) : a <= Py.max a b.
Proof. unfold Py.max. split_cmp; lra. Qed.

Lemma max_ge_r (a b : Q) : b <= Py.max a b.
Proof. unfold Py.max. split_cmp; lra. Qed.

Lemma max_lub (a b c : Q) : a <= c -> b <= c -> Py.max a b <= c.
Proof. intros. unfold Py.max. split_cmp; lra. Qed.

Lemma clip_bounds (v lo hi : Q) : lo <= hi -> lo <= Py.clip v lo hi <= hi.
Proof.
  intro H. unfold Py.clip. split.
  - apply min_glb; [exact H | apply max_ge_r].
  - apply min_le_l.
Qed.

Lemma clip_mono (u v lo hi : Q) : u <= v -> Py.clip u lo hi <= Py.clip v lo hi.
Proof.
  intro H. unfold Py.clip.
  apply min_glb; [apply min_le_l|].
  apply Qle_trans with (Py.max u lo); [apply min_le_r|].
  apply max_lub; [|apply max_ge_r].
  apply Qle_trans with v; [exact H | apply max_ge_l].
Qed.

Lemma clip_inside (v lo hi : Q) : lo <= v <= hi -> Py.clip v lo hi == v.
Proof.
  intros [H1 H2]. unfold Py.clip.
  assert (Hm : Py.max v lo == v).
  { unfold Py.max. split_cmp; lra. }
  unfold Py.min. split_cmp; lra.
Qed.

(** The rounded integer is within one half of the argument, and is even
    whenever the argument is exactly halfway. *)
Lemma round_half_even_spec (q : Q) :
  let k := Py.round_half_even q in
  let n := Qnum q in
  let d := Zpos (Qden q) in
  (2 * d * k - d <= 2 * n <= 2 * d * k + d)%Z
  /\ ((2 * n = 2 * d * k + d)%Z -> Z.even k = true)
  /\ ((2 * n = 2 * d * k - d)%Z -> Z.even k = true).
Proof.
  cbv zeta. unfold Py.round_half_even.
  set (n := Qnum q). set (d := Zpos (Qden q)).
  assert (Hd : (0 < d)%Z) by (unfold d; lia).
  pose proof (Z.div_mod n d ltac:(lia)) as Hdm.
  pose proof (Z.mod_pos_bound n d Hd) as Hr.
  set (f := (n / d)%Z) in *. set (r := (n mod d)%Z) in *.
  destruct (2 * r ?= d)%Z eqn:C.
  - apply Z.compare_eq in C.
    destruct (Z.even f) eqn:Ev.
    + repeat split; try nia. intros _. exact Ev.
    + assert (Z.even (f + 1) = true).
      { rewrite Z.even_add, Ev. reflexivity. }
      repeat split; try nia; intros _; assumption.
  - rewrite Z.compare_lt_iff in C. repeat split; try nia.
  - rewrite Z.compare_gt_iff in C. repeat split; try nia.
Qed.

Lemma round_half_even_mono (p q : Q) :
  p <= q -> (Py.round_half_even p <= Py.round_half_even q)%Z.
Proof.
  intro Hle. unfold Qle in Hle.
  destruct (round_half_even_spec p) as [[Hp1 Hp2] [_ Hp4]].
  destruct (round_half_even_spec q) as [[Hq1 Hq2] [Hq3 _]].
  set (k1 := Py.round_half_even p) in *.
  set (k2 := Py.round_half_even q) in *.
  set (n1 := Qnum p) in *. set (n2 := Qnum q) in *.
  set (d1 := Zpos (Qden p)) in *. set (d2 := Zpos (Qden q)) in *.
  assert (Hd1 : (0 < d1)%Z) by (unfold d1; lia).
  assert (Hd2 : (0 < d2)%Z) by (unfold d2; lia).
  destruct (Z_le_gt_dec k1 k2) as [|Hgt]; [assumption|exfalso].
  assert (A1 : ((2 * k2 + 1) * d1 <= 2 * n1)%Z) by nia.
  assert (A2 : (2 * n2 <= (2 * k2 + 1) * d2)%Z) by nia.
  assert (A3 : ((2 * k2 + 1) * d1 * d2 <= 2 * n1 * d2)%Z) by nia.
  assert (A4 : (2 * n2 * d1 <= (2 * k2 + 1) * d2 * d1)%Z) by nia.
  assert (B1 : (2 * n1 * d2 = (2 * k2 + 1) * d1 * d2)%Z) by nia.
  assert (B2 : (2 * n2 * d1 = (2 * k2 + 1) * d2 * d1)%Z) by nia.
  assert (C1 : (2 * n1 = (2 * k2 + 1) * d1)%Z) by nia.
  assert (C2 : (2 * n2 = (2 * k2 + 1) * d2)%Z) by nia.
  assert (K : (k1 = k2 + 1)%Z) by nia.
  assert (E1 : Z.even k1 = true) by (apply Hp4; nia).
  assert (E2 : Z.even k2 = true) by (apply Hq3; nia).
  rewrite K, Z.even_add, E2 in E1. discriminate.
Qed.

Lemma round1_mono (p q : Q) : p <= q -> Py.round1 p <= Py.round1 q.
Proof.
  intro H. unfold Py.round1.
  assert (Hz : (Py.round_half_even (p * 10) <= Py.round_half_even (q * 10))%Z).
  { apply round_half_even_mono. lra. }
  rewrite Zle_Qle in Hz.
  unfold Qdiv. change (/ 10) with (1 # 10). lra.
Qed.

Lemma round1_within (v lo hi : Q) :
  Py.round1 lo == lo -> Py.round1 hi == hi ->
  lo <= v <= hi -> lo <= Py.round1 v <= hi.
Proof.
  intros Hlo Hhi [H1 H2]. split.
  - rewrite <- Hlo. apply round1_mono, H1.
  - rewrite <- Hhi. apply round1_mono, H2.
Qed.

(** ** The controller *)

Import TrafficLightController.

(** The two ways a call can go, decided by the simulation object. *)
Lemma compute_green_time_unfold (self : t) (density wait_time : Q) :
  compute_green_time self density wait_time =
  match simulator self (Py.clip density 0 100) (Py.clip wait_time 0 120) with
  | Returned raw_output =>
      (Returned (Py.round1 (Py.clip raw_output MIN_GREEN_TIME MAX_GREEN_TIME)),
       [ControllerCall (light_id self) density wait_time])
  | Raised e =>
      (Returned 30,
       [ControllerCall (light_id self) density wait_time;
        FallbackNotice (light_id self) e])
  end.
Proof.
  unfold compute_green_time, bind, emit, try_except, lift, ret.
  destruct (simulator self _ _); reflexivity.
Qed.

Lemma green_bounds_ok : MIN_GREEN_TIME <= MAX_GREEN_TIME.
Proof. unfold MIN_GREEN_TIME, MAX_GREEN_TIME. lra. Qed.

Lemma rounded_clamp_in_range (raw : Q) :
  MIN_GREEN_TIME
  <= Py.round1 (Py.clip raw MIN_GREEN_TIME MAX_GREEN_TIME)
  <= MAX_GREEN_TIME.
Proof.
  apply round1_within.
  - vm_compute. reflexivity.
  - vm_compute. reflexivity.
  - apply clip_bounds, green_bounds_ok.
Qed.

(** Every call returns, with one [ControllerCall] event in front and no
    other, and the returned duration is within the clamp bounds. *)
Lemma compute_green_time_shape (self : t) (density wait_time : Q) :
  exists g rest,
    compute_green_time self density wait_time
    = (Returned g, ControllerCall (light_id self) density wait_time :: rest)
    /\ filter is_controller_call rest = []
    /\ MIN_GREEN_TIME <= g <= MAX_GREEN_TIME.
Proof.
  rewrite compute_green_time_unfold.
  destruct (simulator self _ _) as [raw|e].
  - eexists; exists []. repeat split; try reflexivity;
      apply rounded_clamp_in_range.
  - eexists; eexists. repeat split; try reflexivity;
      unfold MIN_GREEN_TIME, MAX_GREEN_TIME; lra.
Qed.

(** C1.  For every controller (whatever its simulation object does) and
    every input pair, in range or not, [compute_green_time] returns a value
    between MIN_GREEN_TIME = 15 and MAX_GREEN_TIME = 60: on the normal path
    the rounded clamp of the raw output, on the fallback path 30. *)
Theorem compute_green_time_in_range (self : t) (density wait_time : Q) :
  exists g,
    fst (compute_green_time self density wait_time) = Returned g
    /\ 15 <= g <= 60
    /\ match simulator self (Py.clip density 0 100) (Py.clip wait_time 0 120) with
       | Returned raw => g = Py.round1 (Py.clip raw 15 60)
       | Raised _ => g = 30
       end.
Proof.
  rewrite compute_green_time_unfold.
  destruct (simulator self _ _) as [raw|e]; eexists; simpl.
  - split; [reflexivity|]. split; [|reflexivity].
    apply (rounded_clamp_in_range raw).
  - split; [reflexivity|]. split; [lra | reflexivity].
Qed.

(** C9.  Two controllers built by [__init__] from different [light_id]
    strings (indeed from any two) return the same value on every input
    pair; the events they emit differ in the instance name only.  In
    particular the horizontal and the vertical controller of a simulation
    compute the same function. *)
Theorem light_id_does_not_affect_result
        (control_system : Q -> Q -> outcome Q) (id1 id2 : string)
        (density wait_time : Q) :
  fst (compute_green_time (__init__ control_system id1) density wait_time)
  = fst (compute_green_time (__init__ control_system id2) density wait_time)
  /\ map anonymous
         (snd (compute_green_time (__init__ control_system id1) density wait_time))
     = map anonymous
           (snd (compute_green_time (__init__ control_system id2) density wait_time))
  /\ forall rates,
      let sim := TrafficSimulation.__init__ control_system rates in
      fst (compute_green_time (TrafficSimulation.controller_h sim) density wait_time)
      = fst (compute_green_time (TrafficSimulation.controller_v sim) density wait_time).
Proof.
  assert (G : forall a b,
             fst (compute_green_time (__init__ control_system a) density wait_time)
             = fst (compute_green_time (__init__ control_system b) density wait_time)
             /\ map anonymous
                  (snd (compute_green_time (__init__ control_system a) density wait_time))
                = map anonymous
                  (snd (compute_green_time (__init__ control_system b) density wait_time))).
  { intros a b. rewrite !compute_green_time_unfold.
    unfold __init__, _setup_fuzzy_system. simpl.
    destruct (control_system _ _); simpl; split; reflexivity. }
  split; [apply G|]. split; [apply G|].
  intros rates sim. apply (G "horizontal"%string "vertical"%string).
Qed.

(** ** The light state machine *)

(** [_calculate_green_time] always returns; it only writes the green
    duration. *)
Lemma calculate_green_time_spec (s : TS.t) (d : Direction) :
  let direction_cars := filter (TS.pending d) (TS.cars s) in
  let n := Z.of_nat (List.length direction_cars) in
  let controller :=
    match d with horizontal => TS.controller_h s | vertical => TS.controller_v s end in
  let density := inject_Z (Z.min 100 (n * 10)) in
  let avg_wait := Py.sum (map Car.waiting_time direction_cars) / inject_Z n in
  (direction_cars = [] /\
   TS._calculate_green_time s d = (Returned (TS.set_current_green_duration 20 s), []))
  \/
  (direction_cars <> [] /\
   exists g rest,
     compute_green_time controller density avg_wait
     = (Returned g, ControllerCall (light_id controller) density avg_wait :: rest)
     /\ filter is_controller_call rest = []
     /\ exists report,
         is_controller_call report = false
         /\ TS._calculate_green_time s d
            = (Returned (TS.set_current_green_duration g s),
               (ControllerCall (light_id controller) density avg_wait :: rest)
                 ++ [report])).
Proof.
  cbv zeta. unfold TS._calculate_green_time.
  destruct (filter (TS.pending d) (TS.cars s)) as [|c l] eqn:E.
  - left. split; reflexivity.
  - right. split; [discriminate|].
    set (ctl := match d with horizontal => TS.controller_h s
                          | vertical => TS.controller_v s end).
    set (dens := Z.min 100 (Z.of_nat (List.length (c :: l)) * 10)).
    set (avg := Py.sum (map Car.waiting_time (c :: l))
                / inject_Z (Z.of_nat (List.length (c :: l)))).
    destruct (compute_green_time_shape ctl (inject_Z dens) avg)
      as (g & rest & Hc & Hrest & _).
    exists g, rest. split; [exact Hc|]. split; [exact Hrest|].
    eexists. split; [|unfold bind; rewrite Hc; simpl; reflexivity].
    reflexivity.
Qed.

Lemma calculate_green_time_returns (s : TS.t) (d : Direction) :
  exists g tr,
    TS._calculate_green_time s d = (Returned (TS.set_current_green_duration g s), tr).
Proof.
  destruct (calculate_green_time_spec s d) as [[_ H]|[_ (g & rest & _ & _ & r & _ & H)]];
    rewrite H; eauto.
Qed.

Lemma advanced_fields (s : TS.t) :
  TS.light_state (advanced s) = TS.light_state s
  /\ TS.cars (advanced s) = TS.cars s
  /\ TS.controller_h (advanced s) = TS.controller_h s
  /\ TS.controller_v (advanced s) = TS.controller_v s
  /\ TS.light_timer (advanced s) = TS.light_timer s + 0.1
  /\ TS.current_green_duration (advanced s) = TS.current_green_duration s
  /\ TS.yellow_duration (advanced s) = TS.yellow_duration s.
Proof. repeat split. Qed.

Lemma signal_eqb_eq (a b : signal) : signal_eqb a b = true <-> a = b.
Proof. destruct a, b; simpl; split; congruence. Qed.

(** [update_lights] decomposed: which transition fires, and what the
    resulting state and events are. *)
Lemma update_lights_spec (s : TS.t) :
  exists ls' who,
    transition (TS.light_state s) ls' who
    /\ match who with
       | None =>
           exists s', TS.update_lights s = (Returned s', [])
                      /\ TS.light_state s' = ls'
                      /\ TS.cars s' = TS.cars s
                      /\ TS.current_green_duration s' = TS.current_green_duration s
       | Some d =>
           exists s0,
             TS.light_state s0 = ls'
             /\ TS.cars s0 = TS.cars s
             /\ TS.controller_h s0 = TS.controller_h s
             /\ TS.controller_v s0 = TS.controller_v s
             /\ TS.update_lights s = TS._calculate_green_time s0 d
       end.
Proof.
  unfold TS.update_lights. fold (advanced s).
  destruct (advanced_fields s) as (Hls & Hcars & Hch & Hcv & Htm & Hgd & Hyd).
  remember (advanced s) as a eqn:Ha. clear Ha.
  destruct (signal_eqb (get (TS.light_state a) horizontal) GREEN
            && Qle_bool (TS.current_green_duration a) (TS.light_timer a)) eqn:C1.
  { apply andb_true_iff in C1 as [C1 _]. apply signal_eqb_eq in C1.
    rewrite Hls in C1. simpl in C1.
    exists (set (TS.light_state s) horizontal YELLOW), None.
    split; [constructor; exact C1|].
    eexists. split; [reflexivity|]. simpl. rewrite ?Hls, ?Hcars, ?Hgd. auto. }
  destruct (signal_eqb (get (TS.light_state a) horizontal) YELLOW
            && Qle_bool (TS.yellow_duration a) (TS.light_timer a)) eqn:C2.
  { apply andb_true_iff in C2 as [C2 _]. apply signal_eqb_eq in C2.
    rewrite Hls in C2. simpl in C2.
    exists (set (set (TS.light_state s) horizontal RED) vertical GREEN), (Some vertical).
    split; [constructor; exact C2|].
    eexists. split; [|split; [|split; [|split; [|reflexivity]]]]; simpl;
      rewrite ?Hls; auto. }
  destruct (signal_eqb (get (TS.light_state a) vertical) GREEN
            && Qle_bool (TS.current_green_duration a) (TS.light_timer a)) eqn:C3.
  { apply andb_true_iff in C3 as [C3 _]. apply signal_eqb_eq in C3.
    rewrite Hls in C3. simpl in C3.
    exists (set (TS.light_state s) vertical YELLOW), None.
    split; [constructor; assumption|].
    eexists. split; [reflexivity|]. simpl. rewrite ?Hls, ?Hcars, ?Hgd. auto. }
  destruct (signal_eqb (get (TS.light_state a) vertical) YELLOW
            && Qle_bool (TS.yellow_duration a) (TS.light_timer a)) eqn:C4.
  { apply andb_true_iff in C4 as [C4 _]. apply signal_eqb_eq in C4.
    rewrite Hls in C4. simpl in C4.
    exists (set (set (TS.light_state s) vertical RED) horizontal GREEN), (Some horizontal).
    split; [constructor; assumption|].
    eexists. split; [|split; [|split; [|split; [|reflexivity]]]]; simpl;
      rewrite ?Hls; auto. }
  exists (TS.light_state s), None. split; [constructor|].
  eexists. split; [reflexivity|]. auto.
Qed.

Lemma update_lights_returns (s : TS.t) :
  exists s' tr, TS.update_lights s = (Returned s', tr).
Proof.
  destruct (update_lights_spec s) as (ls' & [d|] & _ & H).
  - destruct H as (s0 & _ & _ & _ & _ & H).
    destruct (calculate_green_time_returns s0 d) as (g & tr & Hc).
    rewrite H, Hc. eauto.
  - destruct H as (s' & H & _). eauto.
Qed.

Lemma update_lights_transition (s s' : TS.t) (tr : list event) :
  TS.update_lights s = (Returned s', tr) ->
  exists who, transition (TS.light_state s) (TS.light_state s') who.
Proof.
  intro Hu.
  destruct (update_lights_spec s) as (ls' & who & Ht & H).
  exists who. destruct who as [d|].
  - destruct H as (s0 & Hls & _ & _ & _ & H).
    destruct (calculate_green_time_returns s0 d) as (g & tr' & Hc).
    rewrite H, Hc in Hu. injection Hu as Hs' _.
    rewrite <- Hs'. simpl. rewrite Hls. exact Ht.
  - destruct H as (s1 & H & Hls & _).
    rewrite H in Hu. injection Hu as Hs' _.
    rewrite <- Hs', Hls. exact Ht.
Qed.

Lemma transition_exclusive (ls ls' : by_direction signal) (who : option Direction) :
  transition ls ls' who -> TS.exclusive ls -> TS.exclusive ls'.
Proof.
  unfold TS.exclusive.
  intros Ht Hex. destruct Ht; simpl.
  - destruct Hex as [[_ Hv]|[Hh _]]; [|congruence].
    left. split; [discriminate | exact Hv].
  - right. split; [reflexivity | discriminate].
  - destruct Hex as [[_ Hv]|[Hh _]]; [congruence|].
    right. split; [exact Hh | discriminate].
  - left. split; [discriminate | reflexivity].
  - exact Hex.
Qed.

Lemma generate_traffic_for_light_state t dr s d :
  TS.light_state (TS.generate_traffic_for t dr s d) = TS.light_state s.
Proof.
  unfold TS.generate_traffic_for.
  destruct (_ && _); [|reflexivity].
  destruct (negb _); reflexivity.
Qed.

Lemma generate_traffic_light_state t draws s :
  TS.light_state (TS.generate_traffic t draws s) = TS.light_state s.
Proof.
  unfold TS.generate_traffic. simpl.
  now rewrite !generate_traffic_for_light_state.
Qed.

Lemma reachable_exclusive cs (s : TS.t) :
  TS.reachable cs s -> TS.exclusive (TS.light_state s).
Proof.
  induction 1.
  - left. simpl. split; [discriminate | reflexivity].
  - rewrite generate_traffic_light_state. assumption.
  - destruct (update_lights_transition _ _ _ H0) as [who Ht].
    eapply transition_exclusive; eassumption.
  - exact IHreachable.
Qed.

(** C2.  In every state reachable from the initial one (horizontal GREEN,
    vertical RED) through [generate_traffic], [update_lights] and
    [update_cars], the two directions are never both GREEN, never both
    YELLOW, never one GREEN with the other YELLOW: one axis shows GREEN or
    YELLOW and the other shows RED. *)
Theorem lights_mutually_exclusive
        (control_system : Q -> Q -> outcome Q) (s : TS.t) :
  TS.reachable control_system s ->
  let h := get (TS.light_state s) horizontal in
  let v := get (TS.light_state s) vertical in
  ~ (h = GREEN /\ v = GREEN)
  /\ ~ (h = YELLOW /\ v = YELLOW)
  /\ ~ (h = GREEN /\ v = YELLOW)
  /\ ~ (h = YELLOW /\ v = GREEN)
  /\ (((h = GREEN \/ h = YELLOW) /\ v = RED)
      \/ (h = RED /\ (v = GREEN \/ v = YELLOW))).
Proof.
  intros Hr h v. apply reachable_exclusive in Hr.
  unfold TS.exclusive in Hr. subst h v. simpl.
  destruct (at_h (TS.light_state s)), (at_v (TS.light_state s));
    repeat split; try (intros [? ?]; discriminate);
    destruct Hr as [[A B]|[A B]]; try congruence; auto.
Qed.

Lemma transition_to_green ls ls' who (d : Direction) :
  transition ls ls' who ->
  get ls d <> GREEN -> get ls' d = GREEN -> who = Some d.
Proof.
  intros Ht. destruct Ht, d; simpl; congruence.
Qed.

(** C4.  Whenever [update_lights] turns a direction GREEN, the green
    duration is computed from exactly the vehicles of that direction with
    [passed_intersection] false: if there are none the controller is not
    called and the duration is 20; otherwise the controller of that
    direction is called once, with density = min(100, 10 * count) and
    wait = the mean of their waiting times, and its result becomes the
    duration. *)
Theorem green_time_inputs (s s' : TS.t) (tr : list event) (d : Direction) :
  TS.update_lights s = (Returned s', tr) ->
  get (TS.light_state s) d <> GREEN ->
  get (TS.light_state s') d = GREEN ->
  let direction_cars :=
    filter (fun c => direction_eqb (Car.direction c) d
                     && negb (Car.passed_intersection c)) (TS.cars s) in
  let count := Z.of_nat (List.length direction_cars) in
  let controller :=
    match d with horizontal => TS.controller_h s | vertical => TS.controller_v s end in
  (direction_cars = [] ->
   TS.current_green_duration s' = 20 /\ filter is_controller_call tr = [])
  /\ (direction_cars <> [] ->
      let density := inject_Z (Z.min 100 (count * 10)) in
      let wait := Py.sum (map Car.waiting_time direction_cars) / inject_Z count in
      filter is_controller_call tr
      = [ControllerCall (light_id controller) density wait]
      /\ fst (compute_green_time controller density wait)
         = Returned (TS.current_green_duration s')).
Proof.
  intros Hu Hbefore Hafter. cbv zeta.
  destruct (update_lights_spec s) as (ls' & who & Ht & H).
  assert (Hcalc : exists s0, TS.cars s0 = TS.cars s
                             /\ TS.controller_h s0 = TS.controller_h s
                             /\ TS.controller_v s0 = TS.controller_v s
                             /\ TS._calculate_green_time s0 d = (Returned s', tr)).
  { destruct who as [d'|].
    - destruct H as (s0 & Hls & Hc & Hch & Hcv & H).
      assert (d' = d).
      { destruct (calculate_green_time_returns s0 d') as (g & tr' & Hg).
        rewrite H, Hg in Hu. injection Hu as Hs' _.
        rewrite <- Hs' in Hafter. simpl in Hafter.
        change (get (TS.light_state s0) d = GREEN) in Hafter.
        rewrite Hls in Hafter.
        pose proof (transition_to_green _ _ _ _ Ht Hbefore Hafter). congruence. }
      subst d'. exists s0. rewrite <- H. auto.
    - exfalso. destruct H as (s1 & H & Hls & _).
      rewrite H in Hu. injection Hu as Hs' _.
      rewrite <- Hs', Hls in Hafter.
      pose proof (transition_to_green _ _ _ _ Ht Hbefore Hafter). congruence. }
  destruct Hcalc as (s0 & Hc & Hch & Hcv & Hcalc).
  pose proof (calculate_green_time_spec s0 d) as Hs. cbv zeta in Hs.
  unfold TS.pending in Hs. rewrite Hc, Hch, Hcv in Hs.
  destruct Hs as [[He Hs]|[Hne (g & rest & Hg & Hrest & report & Hrep & Hs)]].
  - rewrite Hs in Hcalc. injection Hcalc as Hs' Htr.
    rewrite <- Hs', <- Htr. split.
    + intros _. split; reflexivity.
    + intro C. contradiction.
  - rewrite Hs in Hcalc. injection Hcalc as Hs' Htr.
    rewrite <- Hs', <- Htr. split.
    + intro C. contradiction.
    + intros _. split.
      * simpl. rewrite filter_app, Hrest. simpl. rewrite Hrep. reflexivity.
      * rewrite Hg. reflexivity.
Qed.

Lemma tick_returns (current_time : Z) (draws : by_direction TS.draw) (s : TS.t) :
  exists s' tr, TS.tick current_time draws s = (Returned s', tr).
Proof.
  unfold TS.tick.
  destruct (update_lights_returns (TS.generate_traffic current_time draws s))
    as (s1 & tr & H).
  unfold bind. rewrite H. simpl. eauto.
Qed.

(** C8.  If the simulation object raises for the (clamped) inputs, the
    call returns exactly 30 after printing the diagnostic, and raises
    nothing itself; no call made by the simulation loop can therefore
    abort a tick. *)
Theorem failure_yields_fallback (self : t) (density wait_time : Q) (e : string) :
  simulator self (Py.clip density 0 100) (Py.clip wait_time 0 120) = Raised e ->
  compute_green_time self density wait_time
  = (Returned 30,
     [ControllerCall (light_id self) density wait_time;
      FallbackNotice (light_id self) e])
  /\ forall s current_time draws,
      exists s' tr, TS.tick current_time draws s = (Returned s', tr).
Proof.
  intro H. split.
  - rewrite compute_green_time_unfold, H. reflexivity.
  - intros s current_time draws. apply tick_returns.
Qed.

(** ** Vehicles *)

Lemma update_waiting_time (c : Car.t) (ls : signal) (cars : list Car.t) :
  Car.waiting_time (Car.update c ls cars)
  = if Car.should_stop (Car.mark_passed c) ls cars
       && negb (Car.passed_intersection (Car.mark_passed c))
    then Car.waiting_time c + 0.1
    else Car.waiting_time c.
Proof.
  assert (Hw : Car.waiting_time (Car.mark_passed c) = Car.waiting_time c).
  { unfold Car.mark_passed. destruct (_ && _); reflexivity. }
  unfold Car.update.
  destruct (Car.should_stop (Car.mark_passed c) ls cars); simpl.
  - destruct (Car.passed_intersection (Car.mark_passed c)); simpl;
      destruct (Car.direction (Car.mark_passed c)); simpl; now rewrite Hw.
  - destruct (Car.direction (Car.mark_passed c)); simpl; now rewrite Hw.
Qed.

Lemma update_passed_intersection (c : Car.t) (ls : signal) (cars : list Car.t) :
  Car.passed_intersection (Car.update c ls cars)
  = Car.passed_intersection (Car.mark_passed c).
Proof.
  unfold Car.update.
  destruct (Car.should_stop (Car.mark_passed c) ls cars); simpl.
  - destruct (Car.passed_intersection (Car.mark_passed c)) eqn:E; simpl;
      destruct (Car.direction (Car.mark_passed c)); simpl; now rewrite ?E.
  - destruct (Car.direction (Car.mark_passed c)); reflexivity.
Qed.

Lemma update_speed (c : Car.t) (ls : signal) (cars : list Car.t) :
  Car.speed (Car.update c ls cars)
  = if Car.should_stop (Car.mark_passed c) ls cars then 0
    else Car.max_speed c.
Proof.
  assert (Hm : Car.max_speed (Car.mark_passed c) = Car.max_speed c).
  { unfold Car.mark_passed. destruct (_ && _); reflexivity. }
  unfold Car.update.
  destruct (Car.should_stop (Car.mark_passed c) ls cars); simpl.
  - destruct (Car.passed_intersection (Car.mark_passed c)); simpl;
      destruct (Car.direction (Car.mark_passed c)); reflexivity.
  - destruct (Car.direction (Car.mark_passed c)); simpl; now rewrite Hm.
Qed.

Lemma mark_passed_keeps (c : Car.t) :
  Car.passed_intersection c = true ->
  Car.passed_intersection (Car.mark_passed c) = true.
Proof.
  intro H. unfold Car.mark_passed. rewrite H. simpl. exact H.
Qed.

Lemma passed_stays (c : Car.t) (envs : list (signal * list Car.t)) :
  Car.passed_intersection c = true ->
  Car.passed_intersection (car_after c envs) = true
  /\ Car.waiting_time (car_after c envs) = Car.waiting_time c.
Proof.
  revert c. induction envs as [|[ls cars] rest IH]; intros c H; simpl.
  - split; [exact H | reflexivity].
  - pose proof (mark_passed_keeps c H) as Hm.
    destruct (IH (Car.update c ls cars)) as [IH1 IH2].
    + rewrite update_passed_intersection. exact Hm.
    + split; [exact IH1|]. rewrite IH2, update_waiting_time, Hm.
      rewrite andb_false_r. reflexivity.
Qed.

Lemma waiting_time_step (c : Car.t) (ls : signal) (cars : list Car.t) :
  Car.waiting_time c <= Car.waiting_time (Car.update c ls cars).
Proof.
  rewrite update_waiting_time. destruct (_ && _); lra.
Qed.

Lemma waiting_time_grows (c : Car.t) (envs : list (signal * list Car.t)) :
  Car.waiting_time c <= Car.waiting_time (car_after c envs).
Proof.
  revert c. induction envs as [|[ls cars] rest IH]; intro c; simpl.
  - lra.
  - eapply Qle_trans; [apply (waiting_time_step c ls cars) | apply IH].
Qed.

(** C6.  One [update] never lowers [waiting_time]; it raises it, by 0.1,
    exactly when the vehicle is stopped and has not passed the
    intersection (as marked at the start of that same update), and leaves
    it as it is otherwise.  Once [passed_intersection] is true it stays
    true and [waiting_time] stays fixed, over any number of later ticks
    and whatever the lights and the other vehicles do. *)
Theorem waiting_time_history
        (c : Car.t) (ls : signal) (cars : list Car.t)
        (envs : list (signal * list Car.t)) :
  let c' := Car.update c ls cars in
  Car.waiting_time c <= Car.waiting_time c'
  /\ (Car.waiting_time c' = Car.waiting_time c
      \/ (Car.waiting_time c' = Car.waiting_time c + 0.1
          /\ Car.speed c' = 0
          /\ Car.passed_intersection c = false
          /\ Car.passed_intersection c' = false))
  /\ (Car.speed c' = 0 /\ Car.passed_intersection c' = false
      \/ Car.speed c' = Car.max_speed c \/ Car.passed_intersection c' = true)
  /\ (Car.should_stop (Car.mark_passed c) ls cars = true ->
      Car.passed_intersection c' = false ->
      Car.waiting_time c' = Car.waiting_time c + 0.1)
  /\ (Car.passed_intersection c = true ->
      Car.passed_intersection c' = true
      /\ Car.waiting_time c' = Car.waiting_time c)
  /\ Car.waiting_time c <= Car.waiting_time (car_after c envs)
  /\ (Car.passed_intersection c = true ->
      Car.passed_intersection (car_after c envs) = true
      /\ Car.waiting_time (car_after c envs) = Car.waiting_time c).
Proof.
  cbv zeta.
  pose proof (update_waiting_time c ls cars) as Hw.
  pose proof (update_passed_intersection c ls cars) as Hp.
  pose proof (update_speed c ls cars) as Hs.
  split; [apply waiting_time_step|].
  split.
  { destruct (Car.should_stop (Car.mark_passed c) ls cars);
      destruct (Car.passed_intersection (Car.mark_passed c)) eqn:E;
      simpl in Hw; auto.
    right. repeat split; auto.
    destruct (Car.passed_intersection c) eqn:E'; [|reflexivity].
    rewrite (mark_passed_keeps c E') in E. discriminate. }
  split.
  { destruct (Car.should_stop (Car.mark_passed c) ls cars); auto.
    destruct (Car.passed_intersection (Car.update c ls cars)); auto. }
  split.
  { intros Hstop Hnp. rewrite Hw, Hstop, <- Hp, Hnp. reflexivity. }
  split.
  { intro H. apply (passed_stays c [(ls, cars)] H). }
  split; [apply waiting_time_grows|].
  apply passed_stays.
Qed.

(** *** Spawning *)

Lemma spawn_blocked_by_true (cars : list Car.t) (new_car : Car.t) :
  TS.spawn_blocked_by cars new_car = true <->
  exists c, In c cars
            /\ Car.direction c = Car.direction new_car
            /\ Qabs (TS.along (Car.direction new_car) c
                     - TS.along (Car.direction new_car) new_car)
               < Car.MIN_SPACING * 2.
Proof.
  induction cars as [|c rest IH]; simpl.
  - split; [discriminate | intros (c & [] & _)].
  - destruct (direction_eqb (Car.direction c) (Car.direction new_car)) eqn:E; simpl.
    + assert (Hd : Car.direction c = Car.direction new_car).
      { destruct (Car.direction c), (Car.direction new_car);
          simpl in E; congruence. }
      destruct (Py.ltb _ _) eqn:L.
      * split; [|reflexivity]. intros _. exists c.
        apply ltb_true in L. auto.
      * rewrite IH. split.
        -- intros (o & Ho & R). exists o. auto.
        -- intros (o & [Ho|Ho] & Hdo & Hlt).
           ++ subst o. apply ltb_false in L.
              exfalso. apply (Qlt_not_le _ _ Hlt L).
           ++ exists o. auto.
    + rewrite IH. split.
      * intros (o & Ho & R). exists o. auto.
      * intros (o & [Ho|Ho] & Hdo & Hlt).
        -- subst o. rewrite Hdo in E.
           destruct (Car.direction new_car); discriminate.
        -- exists o. auto.
Qed.

Lemma spawn_blocked_by_false (cars : list Car.t) (new_car : Car.t) :
  TS.spawn_blocked_by cars new_car = false ->
  forall c, In c cars -> Car.direction c = Car.direction new_car ->
            Car.MIN_SPACING * 2
            <= Qabs (TS.along (Car.direction new_car) c
                     - TS.along (Car.direction new_car) new_car).
Proof.
  intros H c Hin Hd.
  apply Qnot_lt_le. intro Hlt.
  assert (TS.spawn_blocked_by cars new_car = true).
  { apply spawn_blocked_by_true. exists c. auto. }
  congruence.
Qed.

Lemma car_init_direction lane car_id d color offset :
  Car.direction (Car.__init__ lane car_id d color offset) = d.
Proof.
  unfold Car.__init__. destruct (Car._set_initial_position _ _ _) as [[? ?] ?].
  reflexivity.
Qed.

Lemma generate_traffic_for_cars t dr s d :
  TS.cars (TS.generate_traffic_for t dr s d) = TS.cars s
  \/ exists new_car,
      TS.cars (TS.generate_traffic_for t dr s d) = TS.cars s ++ [new_car]
      /\ Car.direction new_car = d
      /\ TS._is_spawn_blocked s new_car = false.
Proof.
  unfold TS.generate_traffic_for.
  destruct (_ && _); [|left; reflexivity].
  match goal with |- context [TS._is_spawn_blocked s ?c] => set (new_car := c) end.
  destruct (TS._is_spawn_blocked s new_car) eqn:B; simpl; [left; reflexivity|].
  right. exists new_car. repeat split; auto.
  apply car_init_direction.
Qed.

(** C10.  One pass of the spawn loop either leaves the vehicle list as it
    is or appends the new vehicle, and it appends only if every vehicle
    already present with the same direction is at least 2 * MIN_SPACING =
    80 units away from the spawn position along the travel axis.  The test
    looks at direction and distance only, never at the lane: a west-bound
    vehicle at x = -150 blocks an east-bound spawn at x = -150. *)
Theorem spawn_requires_clear_axis :
  (forall current_time dr s d,
      let s' := TS.generate_traffic_for current_time dr s d in
      TS.cars s' = TS.cars s
      \/ exists new_car,
          TS.cars s' = TS.cars s ++ [new_car]
          /\ Car.direction new_car = d
          /\ forall c, In c (TS.cars s) -> Car.direction c = d ->
                       80 <= Qabs (TS.along d c - TS.along d new_car))
  /\ (forall s new_car,
         TS._is_spawn_blocked s new_car = true <->
         exists c, In c (TS.cars s)
                   /\ Car.direction c = Car.direction new_car
                   /\ Qabs (TS.along (Car.direction new_car) c
                            - TS.along (Car.direction new_car) new_car) < 80)
  /\ (let s := sample_simulation [westbound_leaving] in
      let new_car := Car.__init__ east (TS.next_car_id s) horizontal 0 50 in
      Car.lane westbound_leaving = west
      /\ Car.lane new_car = east
      /\ Py.ltb 0 (Car.max_speed new_car) = true
      /\ Py.ltb (Car.max_speed westbound_leaving) 0 = true
      /\ TS._is_spawn_blocked s new_car = true
      /\ TS.cars (TS.generate_traffic_for 1000 eastbound_request s horizontal)
         = TS.cars s).
Proof.
  split; [|split].
  - intros current_time dr s d s'. subst s'.
    destruct (generate_traffic_for_cars current_time dr s d)
      as [H|(new_car & H & Hd & Hb)]; [left; exact H|].
    right. exists new_car. split; [exact H|]. split; [exact Hd|].
    intros c Hin Hc.
    pose proof (spawn_blocked_by_false _ _ Hb c Hin) as Hs.
    rewrite Hd in Hs. specialize (Hs Hc).
    unfold Car.MIN_SPACING in Hs. lra.
  - intros s new_car. unfold TS._is_spawn_blocked.
    rewrite spawn_blocked_by_true. unfold Car.MIN_SPACING.
    split; intros (c & Hin & Hd & Hlt); exists c; repeat split; auto; lra.
  - cbv zeta. repeat split; vm_compute; reflexivity.
Qed.

(** *** The per-tick update of all vehicles *)

Lemma too_close_to_mark_passed (c o : Car.t) :
  Car.too_close_to (Car.mark_passed c) o = Car.too_close_to c o.
Proof.
  unfold Car.mark_passed. destruct (_ && _); reflexivity.
Qed.

Lemma is_too_close_app (c : Car.t) (l1 l2 : list Car.t) :
  Car.is_too_close_to_car_ahead c (l1 ++ l2)
  = Car.is_too_close_to_car_ahead c l1 || Car.is_too_close_to_car_ahead c l2.
Proof.
  induction l1 as [|o l1 IH]; simpl; [reflexivity|].
  destruct (Car.too_close_to c o); [reflexivity | exact IH].
Qed.

Lemma is_too_close_none (c : Car.t) (l : list Car.t) :
  (forall o, In o l -> Car.too_close_to c o = false) ->
  Car.is_too_close_to_car_ahead c l = false.
Proof.
  induction l as [|o l IH]; intro H; simpl; [reflexivity|].
  rewrite (H o (or_introl eq_refl)). apply IH. intros; apply H; now right.
Qed.

Lemma update_depends_on_verdict (c : Car.t) (ls : signal) (l1 l2 : list Car.t) :
  Car.is_too_close_to_car_ahead (Car.mark_passed c) l1
  = Car.is_too_close_to_car_ahead (Car.mark_passed c) l2 ->
  Car.update c ls l1 = Car.update c ls l2.
Proof.
  intro H. unfold Car.update, Car.should_stop. rewrite H. reflexivity.
Qed.

Lemma kept_after_cons ls everyone (c : Car.t) (l : list Car.t) :
  kept_after ls everyone (c :: l)
  = (if Car.is_off_screen (moved_against ls everyone c) then []
     else [moved_against ls everyone c]) ++ kept_after ls everyone l.
Proof.
  unfold kept_after. simpl.
  destruct (Car.is_off_screen (moved_against ls everyone c)); reflexivity.
Qed.

Lemma kept_after_snoc ls everyone (c : Car.t) (l : list Car.t) :
  kept_after ls everyone (l ++ [c])
  = kept_after ls everyone l
    ++ (if Car.is_off_screen (moved_against ls everyone c) then []
        else [moved_against ls everyone c]).
Proof.
  unfold kept_after. rewrite map_app, filter_app. simpl.
  destruct (Car.is_off_screen (moved_against ls everyone c)); reflexivity.
Qed.

Lemma verdict_on_kept ls everyone (c : Car.t) (earlier : list Car.t) :
  (forall other, In other earlier ->
     (if Car.is_off_screen (moved_against ls everyone other)
      then negb (Car.too_close_to c other)
      else Bool.eqb (Car.too_close_to c (moved_against ls everyone other))
                    (Car.too_close_to c other)) = true) ->
  Car.is_too_close_to_car_ahead c (kept_after ls everyone earlier)
  = Car.is_too_close_to_car_ahead c earlier.
Proof.
  induction earlier as [|o l IH]; intro H; [reflexivity|].
  rewrite kept_after_cons, is_too_close_app.
  rewrite IH by (intros; apply H; now right).
  specialize (H o (or_introl eq_refl)).
  cbn [Car.is_too_close_to_car_ahead].
  destruct (Car.is_off_screen (moved_against ls everyone o)).
  - apply negb_true_iff in H. rewrite H. reflexivity.
  - apply eqb_prop in H. rewrite <- H.
    cbn [Car.is_too_close_to_car_ahead].
    destruct (Car.too_close_to c (moved_against ls everyone o)); reflexivity.
Qed.

Lemma loop_agrees_with_snapshot ls everyone (todo earlier : list Car.t) :
  everyone = earlier ++ todo ->
  earlier_moves_unnoticed ls everyone earlier todo = true ->
  TS.update_cars_loop ls (kept_after ls everyone earlier) todo
  = kept_after ls everyone earlier ++ kept_after ls everyone todo.
Proof.
  revert earlier. induction todo as [|c rest IH]; intros earlier Hall Hok.
  - simpl. unfold kept_after at 3. simpl. now rewrite app_nil_r.
  - simpl in Hok. apply andb_true_iff in Hok as [Hc Hrest].
    rewrite forallb_forall in Hc.
    assert (Hlive : Car.update c (get ls (Car.direction c))
                               (kept_after ls everyone earlier ++ c :: rest)
                    = moved_against ls everyone c).
    { unfold moved_against. rewrite Hall at 2. apply update_depends_on_verdict.
      rewrite !is_too_close_app. f_equal.
      apply verdict_on_kept. intros o Ho.
      rewrite !too_close_to_mark_passed. apply (Hc o Ho). }
    specialize (IH (earlier ++ [c])).
    rewrite <- app_assoc in IH. specialize (IH Hall Hrest).
    rewrite kept_after_snoc in IH.
    rewrite kept_after_cons.
    cbn [TS.update_cars_loop]. rewrite Hlive.
    destruct (Car.is_off_screen (moved_against ls everyone c)).
    + rewrite app_nil_r in IH. exact IH.
    + rewrite IH, <- app_assoc. reflexivity.
Qed.

(** C5, as the code has it.  [update_cars] walks the vehicles in list
    order and each spacing check reads the live list, in which the vehicles
    walked before are at their updated positions (or gone, once off
    screen) and the others at their previous positions.  Its result equals
    the snapshot reference update whenever the update of a vehicle is not
    noticed by the vehicles after it in the list: each of them judges it
    the same at its updated position as at its previous one, and did not
    judge it too close if it is dropped as off screen. *)
Theorem update_cars_agrees_with_snapshot (s : TS.t) :
  earlier_moves_unnoticed (TS.light_state s) (TS.cars s) [] (TS.cars s) = true ->
  TS.update_cars s = TS.update_cars_snapshot s
  /\ forall done car rest,
      TS.update_cars_loop (TS.light_state s) done (car :: rest)
      = let car' := Car.update car (get (TS.light_state s) (Car.direction car))
                               (done ++ car :: rest) in
        TS.update_cars_loop (TS.light_state s)
          (done ++ (if Car.is_off_screen car' then [] else [car'])) rest.
Proof.
  intro H. split.
  - unfold TS.update_cars, TS.update_cars_snapshot. f_equal.
    apply (loop_agrees_with_snapshot (TS.light_state s) (TS.cars s) (TS.cars s) []
                                     eq_refl H).
  - intros done car rest. simpl.
    destruct (Car.is_off_screen _); [rewrite app_nil_r|]; reflexivity.
Qed.

(** C5 as stated fails: with the leader listed before the follower, the
    follower already sees the leader's new position and moves, while
    against the snapshot it would wait; listed the other way round, the
    loop and the snapshot agree. *)
Lemma update_cars_differs_from_snapshot :
  TS.update_cars (sample_simulation [leader; follower])
  <> TS.update_cars_snapshot (sample_simulation [leader; follower])
  /\ map Car.x (TS.cars (TS.update_cars (sample_simulation [leader; follower])))
     = [352.5; 313.5]
  /\ map Car.x (TS.cars (TS.update_cars_snapshot (sample_simulation [leader; follower])))
     = [352.5; 311]
  /\ map Car.x (TS.cars (TS.update_cars (sample_simulation [follower; leader])))
     = [311; 352.5].
Proof.
  split; [|split; [|split]].
  - intro H. apply (f_equal (fun s => map Car.speed (TS.cars s))) in H.
    vm_compute in H. discriminate.
  - vm_compute. reflexivity.
  - vm_compute. reflexivity.
  - vm_compute. reflexivity.
Qed.

(** ** The inference engine *)

Import InferenceEngine.

(** *** Sums over a universe *)

Lemma sum_le (f g : Q -> Q) (l : list Q) :
  (forall x, In x l -> f x <= g x) ->
  Py.sum (map f l) <= Py.sum (map g l).
Proof.
  induction l as [|a l IH]; intro H; simpl; [lra|].
  assert (f a <= g a) by (apply H; now left).
  assert (Py.sum (map f l) <= Py.sum (map g l)) by (apply IH; intros; apply H; now right).
  lra.
Qed.

Lemma sum_nonneg (f : Q -> Q) (l : list Q) :
  (forall x, In x l -> 0 <= f x) -> 0 <= Py.sum (map f l).
Proof.
  induction l as [|a l IH]; intro H; simpl; [lra|].
  assert (0 <= f a) by (apply H; now left).
  assert (0 <= Py.sum (map f l)) by (apply IH; intros; apply H; now right).
  lra.
Qed.

Lemma sum_ge_term (f : Q -> Q) (l : list Q) (x : Q) :
  (forall y, In y l -> 0 <= f y) -> In x l -> f x <= Py.sum (map f l).
Proof.
  induction l as [|a l IH]; intros H Hin; simpl; [destruct Hin|].
  assert (0 <= f a) by (apply H; now left).
  assert (0 <= Py.sum (map f l)) by (apply sum_nonneg; intros; apply H; now right).
  destruct Hin as [->|Hin].
  - lra.
  - assert (f x <= Py.sum (map f l)) by (apply IH; auto; intros; apply H; now right).
    lra.
Qed.

Lemma sum_zero (f : Q -> Q) (l : list Q) :
  (forall x, In x l -> f x == 0) -> Py.sum (map f l) == 0.
Proof.
  induction l as [|a l IH]; intro H; simpl; [reflexivity|].
  rewrite (H a (or_introl eq_refl)), IH; [lra|]. intros; apply H; now right.
Qed.

(** The first moment about [c]. *)
Lemma sum_moment (f : Q -> Q) (c : Q) (l : list Q) :
  Py.sum (map (fun x => (x - c) * f x) l)
  == Py.sum (map (fun x => x * f x) l) - c * Py.sum (map f l).
Proof.
  induction l as [|a l IH]; simpl; [lra|]. rewrite IH. ring.
Qed.

Lemma sum_scale (k : Q -> Q) (s : Q) (l : list Q) :
  Py.sum (map (fun x => k x * s) l) == s * Py.sum (map k l).
Proof.
  induction l as [|a l IH]; simpl; [lra|]. rewrite IH. ring.
Qed.

(** *** Membership functions *)

Lemma div_bounds (p q : Q) : 0 <= p -> p <= q -> 0 < q -> 0 <= p / q <= 1.
Proof.
  intros H0 H1 Hq. split.
  - apply Qle_shift_div_l; [exact Hq | lra].
  - apply Qle_shift_div_r; [exact Hq | lra].
Qed.

Lemma div_pos (p q : Q) : 0 < p -> 0 < q -> 0 < p / q.
Proof.
  intros Hp Hq. apply Qlt_shift_div_l; [exact Hq | lra].
Qed.

Lemma trapmf_range (a b c d x : Q) : 0 <= trapmf a b c d x <= 1.
Proof.
  unfold trapmf.
  destruct (Py.ltb x a) eqn:E1; [lra|]. apply ltb_false in E1.
  destruct (Py.ltb x b) eqn:E2.
  { apply ltb_true in E2. apply div_bounds; lra. }
  destruct (Qle_bool x c) eqn:E3; [lra|]. apply leb_false in E3.
  destruct (Py.ltb x d) eqn:E4; [|lra].
  apply ltb_true in E4. apply div_bounds; lra.
Qed.

Lemma green_mf_range (g : green_term) (x : Q) : 0 <= green_mf g x <= 1.
Proof. destruct g; apply trapmf_range. Qed.

Lemma density_mf_range (t : density_term) (x : Q) : 0 <= density_mf t x <= 1.
Proof. destruct t; apply trapmf_range. Qed.

Lemma wait_mf_range (t : wait_term) (x : Q) : 0 <= wait_mf t x <= 1.
Proof. destruct t; apply trapmf_range. Qed.

(** Where the green terms vanish or saturate. *)
Lemma green_short_zero (x : Q) : 35 <= x -> green_mf g_short x = 0.
Proof.
  intro H. simpl. unfold trapmf.
  destruct (Py.ltb x 5) eqn:E1; [reflexivity|].
  destruct (Py.ltb x 5); [discriminate|].
  destruct (Qle_bool x 20) eqn:E3; [apply Qle_bool_iff in E3; lra|].
  destruct (Py.ltb x 35) eqn:E4; [apply ltb_true in E4; lra | reflexivity].
Qed.

Lemma green_long_zero (x : Q) : x <= 45 -> green_mf g_long x == 0.
Proof.
  intro H. simpl. unfold trapmf.
  destruct (Py.ltb x 45) eqn:E1; [reflexivity|]. apply ltb_false in E1.
  destruct (Py.ltb x 60) eqn:E2; [|apply ltb_false in E2; lra].
  assert (x == 45) by lra.
  unfold Qdiv. let v := eval vm_compute in (/ (60 - 45)) in change (/ (60 - 45)) with v.
  lra.
Qed.

Lemma green_long_one (x : Q) : 60 <= x <= 90 -> green_mf g_long x = 1.
Proof.
  intros [H1 H2]. simpl. unfold trapmf.
  destruct (Py.ltb x 45) eqn:E1; [apply ltb_true in E1; lra|].
  destruct (Py.ltb x 60) eqn:E2; [apply ltb_true in E2; lra|].
  destruct (Qle_bool x 90) eqn:E3; [reflexivity|]. apply leb_false in E3. lra.
Qed.

Lemma in_green_universe (x : Q) : In x green_universe -> 5 <= x <= 90.
Proof.
  unfold green_universe, Py.arange. intro H.
  apply in_map_iff in H as (k & <- & Hk). apply in_seq in Hk.
  change (Z.to_nat (91 - 5)) with 86%nat in Hk.
  split; [change 5 with (inject_Z 5) | change 90 with (inject_Z 90)];
    rewrite <- Zle_Qle; lia.
Qed.

(** The medium term is symmetric about 40, so any clipping of it has
    first moment zero about 40. *)
Lemma clipped_medium_balanced (s : Q) :
  0 <= s ->
  Py.sum (map (fun x => (x - 40) * clipped s g_medium x) green_universe) == 0.
Proof.
  intro Hs. unfold clipped.
  change green_universe with (Py.arange 5 91).
  unfold Py.arange.
  change (Z.to_nat (91 - 5)) with 86%nat.
  cbn [seq map Py.sum fold_right].
  repeat match goal with
         | |- context [green_mf g_medium (inject_Z ?k)] =>
             let v := eval vm_compute in (green_mf g_medium (inject_Z k)) in
             change (green_mf g_medium (inject_Z k)) with v
         end.
  repeat match goal with
         | |- context [inject_Z ?k] =>
             let v := eval vm_compute in (inject_Z k) in
             change (inject_Z k) with v
         end.
  repeat match goal with
         | |- context [Py.min s ?c] =>
             let m := fresh "m" in
             first [ assert (Py.min s c == 0)
                       by (unfold Py.min; split_cmp; lra)
                   | idtac ];
             set (m := Py.min s c) in *; clearbody m
         end.
  lra.
Qed.

(** *** Rule strengths *)

Lemma rule_strength_range (d w : Q) (r : Rule) : 0 <= rule_strength d w r <= 1.
Proof.
  unfold rule_strength. split.
  - apply min_glb; [apply density_mf_range | apply wait_mf_range].
  - eapply Qle_trans; [apply min_le_l | apply density_mf_range].
Qed.

Lemma strength_fold_ge_acc d w g rules acc :
  acc <= strength_fold d w g rules acc.
Proof.
  revert acc. induction rules as [|r rules IH]; intro acc; simpl; [lra|].
  destruct (green_term_eqb (then_green r) g).
  - eapply Qle_trans; [apply max_ge_l | apply IH].
  - apply IH.
Qed.

Lemma strength_fold_ge_rule d w g rules acc r :
  In r rules -> then_green r = g ->
  rule_strength d w r <= strength_fold d w g rules acc.
Proof.
  revert acc. induction rules as [|r' rules IH]; intros acc Hin Hg; [destruct Hin|].
  simpl. destruct Hin as [->|Hin].
  - rewrite Hg. replace (green_term_eqb g g) with true by (destruct g; reflexivity).
    eapply Qle_trans; [apply max_ge_r | apply strength_fold_ge_acc].
  - apply IH; assumption.
Qed.

Lemma strength_fold_le d w g rules acc (bound : Q) :
  acc <= bound ->
  (forall r, In r rules -> then_green r = g -> rule_strength d w r <= bound) ->
  strength_fold d w g rules acc <= bound.
Proof.
  revert acc. induction rules as [|r rules IH]; intros acc Hacc H; simpl; [exact Hacc|].
  destruct (green_term_eqb (then_green r) g) eqn:E.
  - apply IH.
    + apply max_lub; [exact Hacc|]. apply H; [now left|].
      destruct (then_green r), g; simpl in E; congruence.
    + intros; apply H; auto. now right.
  - apply IH; [exact Hacc|]. intros; apply H; auto. now right.
Qed.

Lemma term_strength_range (d w : Q) (g : green_term) : 0 <= term_strength d w g <= 1.
Proof.
  change (term_strength d w g) with (strength_fold d w g _create_fuzzy_rules 0).
  split.
  - apply strength_fold_ge_acc.
  - apply strength_fold_le; [lra|]. intros; apply rule_strength_range.
Qed.

Lemma term_strength_ge (d w : Q) (dt : density_term) (wt : wait_term) (g : green_term) :
  In (mkRule dt wt g) _create_fuzzy_rules ->
  Py.min (density_mf dt d) (wait_mf wt w) <= term_strength d w g.
Proof.
  intro Hin.
  change (term_strength d w g) with (strength_fold d w g _create_fuzzy_rules 0).
  apply (strength_fold_ge_rule d w g _ 0 (mkRule dt wt g) Hin eq_refl).
Qed.

Lemma term_strength_zero (d w : Q) (g : green_term) :
  (forall r, In r _create_fuzzy_rules -> then_green r = g ->
             density_mf (if_density r) d <= 0 \/ wait_mf (if_wait r) w <= 0) ->
  term_strength d w g == 0.
Proof.
  intro H. apply Qle_antisym; [|apply term_strength_range].
  change (term_strength d w g) with (strength_fold d w g _create_fuzzy_rules 0).
  apply strength_fold_le; [lra|].
  intros r Hin Hg. unfold rule_strength.
  destruct (H r Hin Hg) as [Hz|Hz].
  - eapply Qle_trans; [apply min_le_l | exact Hz].
  - eapply Qle_trans; [apply min_le_r | exact Hz].
Qed.

Lemma min_pos (a b : Q) : 0 < a -> 0 < b -> 0 < Py.min a b.
Proof. intros. unfold Py.min. split_cmp; assumption. Qed.

(** *** The aggregated curve *)

Lemma clipped_range (s : Q) (g : green_term) (x : Q) :
  0 <= s -> 0 <= clipped s g x <= s.
Proof.
  intro Hs. unfold clipped. split.
  - apply min_glb; [exact Hs | apply green_mf_range].
  - apply min_le_l.
Qed.

Lemma aggregate_nonneg (ss sm sl x : Q) :
  0 <= ss -> 0 <= aggregate ss sm sl x.
Proof.
  intros Hs. unfold aggregate.
  eapply Qle_trans; [|apply max_ge_l].
  eapply Qle_trans; [|apply max_ge_l].
  apply clipped_range, Hs.
Qed.

Lemma aggregate_ge_medium (ss sm sl x : Q) :
  clipped sm g_medium x <= aggregate ss sm sl x.
Proof.
  unfold aggregate.
  eapply Qle_trans; [|apply max_ge_l]. apply max_ge_r.
Qed.

Lemma aggregate_ge_short (ss sm sl x : Q) :
  clipped ss g_short x <= aggregate ss sm sl x.
Proof.
  unfold aggregate.
  eapply Qle_trans; [|apply max_ge_l]. apply max_ge_l.
Qed.

Lemma aggregate_ge_long (ss sm sl x : Q) :
  clipped sl g_long x <= aggregate ss sm sl x.
Proof. unfold aggregate. apply max_ge_r. Qed.

(** With the short and long contributions absent at [x], the curve is the
    clipped medium term. *)
Lemma aggregate_is_medium (ss sm sl x : Q) :
  0 <= sm ->
  clipped ss g_short x <= 0 -> clipped sl g_long x <= 0 ->
  aggregate ss sm sl x == clipped sm g_medium x.
Proof.
  intros Hm H1 H2. apply Qle_antisym; [|apply aggregate_ge_medium].
  pose proof (clipped_range sm g_medium x Hm) as [Hc _].
  unfold aggregate. apply max_lub; [apply max_lub|]; lra.
Qed.

Lemma aggregate_is_long (ss sm sl x : Q) :
  0 <= sl ->
  clipped ss g_short x <= 0 -> clipped sm g_medium x <= 0 ->
  aggregate ss sm sl x == clipped sl g_long x.
Proof.
  intros Hl H1 H2. apply Qle_antisym; [|apply aggregate_ge_long].
  pose proof (clipped_range sl g_long x Hl) as [Hc _].
  unfold aggregate. apply max_lub; [apply max_lub|]; lra.
Qed.

Lemma clipped_zero_strength (s : Q) (g : green_term) (x : Q) :
  s <= 0 -> clipped s g x <= 0.
Proof. intro H. unfold clipped. eapply Qle_trans; [apply min_le_l | exact H]. Qed.

Lemma clipped_zero_membership (s : Q) (g : green_term) (x : Q) :
  green_mf g x <= 0 -> clipped s g x <= 0.
Proof. intro H. unfold clipped. eapply Qle_trans; [apply min_le_r | exact H]. Qed.

(** *** Centroid bounds *)

Lemma defuzzify_positive_mass (mu : Q -> Q) :
  0 < Py.sum (map mu green_universe) ->
  defuzzify mu
  = Py.sum (map (fun x => x * mu x) green_universe) / Py.sum (map mu green_universe).
Proof.
  intro H. unfold defuzzify.
  destruct (Qeq_bool _ 0) eqn:E; [|reflexivity].
  apply Qeq_bool_eq in E. lra.
Qed.

Lemma defuzzify_ge (mu : Q -> Q) (c : Q) :
  0 < Py.sum (map mu green_universe) ->
  0 <= Py.sum (map (fun x => (x - c) * mu x) green_universe) ->
  c <= defuzzify mu.
Proof.
  intros Hden Hm. rewrite (defuzzify_positive_mass mu Hden).
  rewrite sum_moment in Hm.
  apply Qle_shift_div_l; [exact Hden | lra].
Qed.

Lemma defuzzify_le (mu : Q -> Q) (c : Q) :
  0 < Py.sum (map mu green_universe) ->
  Py.sum (map (fun x => (x - c) * mu x) green_universe) <= 0 ->
  defuzzify mu <= c.
Proof.
  intros Hden Hm. rewrite (defuzzify_positive_mass mu Hden).
  rewrite sum_moment in Hm.
  apply Qle_shift_div_r; [exact Hden | lra].
Qed.

Lemma mass_positive (mu : Q -> Q) (x : Q) :
  (forall y, In y green_universe -> 0 <= mu y) ->
  In x green_universe -> 0 < mu x ->
  0 < Py.sum (map mu green_universe).
Proof.
  intros Hn Hin Hx.
  eapply Qlt_le_trans; [exact Hx | apply sum_ge_term; assumption].
Qed.

Lemma in_universe_5 : In 5 green_universe.
Proof. vm_compute. auto 100. Qed.
Lemma in_universe_40 : In 40 green_universe.
Proof. vm_compute. auto 100. Qed.
Lemma in_universe_90 : In 90 green_universe.
Proof. vm_compute. intuition. Qed.

Lemma long_weight_total : Py.sum (map long_weight green_universe) == 360.
Proof. vm_compute. reflexivity. Qed.

Lemma green_medium_40 : green_mf g_medium 40 = 1.
Proof. vm_compute. reflexivity. Qed.
Lemma green_short_5 : green_mf g_short 5 = 1.
Proof. vm_compute. reflexivity. Qed.
Lemma green_long_90 : green_mf g_long 90 = 1.
Proof. vm_compute. reflexivity. Qed.

Lemma clipped_at_one (s : Q) (g : green_term) (x : Q) :
  green_mf g x = 1 -> 0 < s -> 0 < clipped s g x.
Proof. intros H Hs. unfold clipped. rewrite H. apply min_pos; lra. Qed.

(** Only the long term contributes: the centroid is at least 60. *)
Lemma centroid_long_only (ss sm sl : Q) :
  ss == 0 -> sm == 0 -> 0 < sl -> sl <= 1 ->
  60 <= defuzzify (aggregate ss sm sl).
Proof.
  intros Hs Hm Hl Hl1.
  assert (Hmu : forall x, aggregate ss sm sl x == clipped sl g_long x).
  { intro x. apply aggregate_is_long; [lra| |];
      apply clipped_zero_strength; lra. }
  apply defuzzify_ge.
  - apply (mass_positive _ 90).
    + intros; apply aggregate_nonneg; lra.
    + apply in_universe_90.
    + rewrite Hmu. apply clipped_at_one; [apply green_long_90 | exact Hl].
  - apply Qle_trans with (Py.sum (map (fun x => long_weight x * sl) green_universe)).
    + rewrite sum_scale, long_weight_total. lra.
    + apply sum_le. intros x Hin. apply in_green_universe in Hin.
      rewrite (Hmu x). unfold long_weight.
      destruct (Qle_bool x 45) eqn:E.
      * apply Qle_bool_iff in E.
        pose proof (clipped_zero_membership sl g_long x) as Hz.
        pose proof (green_long_zero x E).
        pose proof (clipped_range sl g_long x) as Hr.
        assert (clipped sl g_long x == 0) by (apply Qle_antisym; [apply Hz|apply Hr]; lra).
        nra.
      * apply leb_false in E.
        destruct (Qlt_le_dec x 60) as [Hx|Hx].
        -- pose proof (clipped_range sl g_long x) as Hr.
           assert (clipped sl g_long x <= sl) by (apply Hr; lra).
           nra.
        -- unfold clipped. rewrite (green_long_one x) by lra.
           assert (Py.min sl 1 == sl) by (unfold Py.min; split_cmp; lra).
           nra.
Qed.

(** No short contribution: the centroid is at least 40. *)
Lemma centroid_without_short (ss sm sl : Q) :
  ss == 0 -> 0 <= sm -> 0 <= sl -> 0 < sm \/ 0 < sl ->
  40 <= defuzzify (aggregate ss sm sl).
Proof.
  intros Hs Hm Hl Hpos.
  apply defuzzify_ge.
  - destruct Hpos as [Hp|Hp].
    + apply (mass_positive _ 40).
      * intros; apply aggregate_nonneg; lra.
      * apply in_universe_40.
      * eapply Qlt_le_trans; [|apply aggregate_ge_medium].
        apply clipped_at_one; [apply green_medium_40 | exact Hp].
    + apply (mass_positive _ 90).
      * intros; apply aggregate_nonneg; lra.
      * apply in_universe_90.
      * eapply Qlt_le_trans; [|apply aggregate_ge_long].
        apply clipped_at_one; [apply green_long_90 | exact Hp].
  - rewrite <- (clipped_medium_balanced sm Hm).
    apply sum_le. intros x Hin.
    destruct (Qlt_le_dec 40 x) as [Hx|Hx].
    + pose proof (aggregate_ge_medium ss sm sl x). nra.
    + assert (aggregate ss sm sl x == clipped sm g_medium x) as ->.
      { apply aggregate_is_medium; [exact Hm| |].
        - apply clipped_zero_strength; lra.
        - apply clipped_zero_membership.
          rewrite (green_long_zero x); lra. }
      lra.
Qed.

(** No long contribution: the centroid is at most 40. *)
Lemma centroid_without_long (ss sm sl : Q) :
  sl == 0 -> 0 <= ss -> 0 <= sm -> 0 < ss \/ 0 < sm ->
  defuzzify (aggregate ss sm sl) <= 40.
Proof.
  intros Hl Hs Hm Hpos.
  apply defuzzify_le.
  - destruct Hpos as [Hp|Hp].
    + apply (mass_positive _ 5).
      * intros; apply aggregate_nonneg; lra.
      * apply in_universe_5.
      * eapply Qlt_le_trans; [|apply aggregate_ge_short].
        apply clipped_at_one; [apply green_short_5 | exact Hp].
    + apply (mass_positive _ 40).
      * intros; apply aggregate_nonneg; lra.
      * apply in_universe_40.
      * eapply Qlt_le_trans; [|apply aggregate_ge_medium].
        apply clipped_at_one; [apply green_medium_40 | exact Hp].
  - rewrite <- (clipped_medium_balanced sm Hm).
    apply sum_le. intros x Hin.
    destruct (Qlt_le_dec x 40) as [Hx|Hx].
    + pose proof (aggregate_ge_medium ss sm sl x). nra.
    + assert (aggregate ss sm sl x == clipped sm g_medium x) as ->.
      { apply aggregate_is_medium; [exact Hm| |].
        - apply clipped_zero_membership.
          rewrite (green_short_zero x); lra.
        - apply clipped_zero_strength; lra. }
      lra.
Qed.

(** *** Where the input terms vanish and where they do not *)

Ltac ramp_constants :=
  unfold Qdiv;
  repeat match goal with
         | |- context [/ (?a - ?b)] =>
             let v := eval vm_compute in (/ (a - b)) in
             change (/ (a - b)) with v
         end.

Lemma density_low_pos (x : Q) : 0 <= x -> x < 45 -> 0 < density_mf d_low x.
Proof.
  intros H0 H. simpl. unfold trapmf.
  destruct (Py.ltb x 0) eqn:E1; [apply ltb_true in E1; lra|].
  destruct (Qle_bool x 25) eqn:E3; [lra|]. apply leb_false in E3.
  destruct (Py.ltb x 45) eqn:E4; [|apply ltb_false in E4; lra].
  ramp_constants. lra.
Qed.

Lemma density_low_zero (x : Q) : 45 <= x -> density_mf d_low x <= 0.
Proof.
  intro H. simpl. unfold trapmf.
  destruct (Py.ltb x 0) eqn:E1; [lra|].
  destruct (Qle_bool x 25) eqn:E3; [apply Qle_bool_iff in E3; lra|].
  destruct (Py.ltb x 45) eqn:E4; [apply ltb_true in E4; lra | lra].
Qed.

Lemma density_high_zero (x : Q) : x <= 55 -> density_mf d_high x <= 0.
Proof.
  intro H. simpl. unfold trapmf.
  destruct (Py.ltb x 55) eqn:E1; [lra|]. apply ltb_false in E1.
  destruct (Py.ltb x 75) eqn:E2; [|apply ltb_false in E2; lra].
  ramp_constants. lra.
Qed.

Lemma density_medium_or_high_pos (x : Q) :
  45 <= x -> x <= 100 ->
  0 < density_mf d_medium x \/ 0 < density_mf d_high x.
Proof.
  intros H1 H2. destruct (Qlt_le_dec x 75) as [Hx|Hx].
  - left. simpl. unfold trimf, trapmf.
    destruct (Py.ltb x 25) eqn:E1; [apply ltb_true in E1; lra|].
    destruct (Py.ltb x 50) eqn:E2.
    { apply ltb_true in E2. ramp_constants. lra. }
    destruct (Qle_bool x 50) eqn:E3; [lra|].
    destruct (Py.ltb x 75) eqn:E4; [|apply ltb_false in E4; lra].
    ramp_constants. lra.
  - right. simpl. unfold trapmf.
    destruct (Py.ltb x 55) eqn:E1; [apply ltb_true in E1; lra|].
    destruct (Py.ltb x 75) eqn:E2; [apply ltb_true in E2; lra|].
    destruct (Qle_bool x 100) eqn:E3; [lra|]. apply leb_false in E3. lra.
Qed.

Lemma wait_covered (x : Q) :
  0 <= x -> x <= 120 ->
  0 < wait_mf w_short x \/ 0 < wait_mf w_medium x \/ 0 < wait_mf w_long x.
Proof.
  intros H1 H2. destruct (Qlt_le_dec x 50) as [Hx|Hx].
  - left. simpl. unfold trapmf.
    destruct (Py.ltb x 0) eqn:E1; [apply ltb_true in E1; lra|].
    destruct (Qle_bool x 30) eqn:E3; [lra|]. apply leb_false in E3.
    destruct (Py.ltb x 50) eqn:E4; [|apply ltb_false in E4; lra].
    ramp_constants. lra.
  - destruct (Qlt_le_dec x 90) as [Hy|Hy].
    + right; left. simpl. unfold trimf, trapmf.
      destruct (Py.ltb x 30) eqn:E1; [apply ltb_true in E1; lra|].
      destruct (Py.ltb x 60) eqn:E2.
      { apply ltb_true in E2. ramp_constants. lra. }
      destruct (Qle_bool x 60) eqn:E3; [lra|].
      destruct (Py.ltb x 90) eqn:E4; [|apply ltb_false in E4; lra].
      ramp_constants. lra.
    + right; right. simpl. unfold trapmf.
      destruct (Py.ltb x 70) eqn:E1; [apply ltb_true in E1; lra|].
      destruct (Py.ltb x 90) eqn:E2; [apply ltb_true in E2; lra|].
      destruct (Qle_bool x 120) eqn:E3; [lra|]. apply leb_false in E3. lra.
Qed.

(** The degrees of the fixed inputs of the monotonic-tendency property. *)
Lemma density_85 :
  density_mf d_low 85 = 0 /\ density_mf d_medium 85 = 0 /\ density_mf d_high 85 = 1.
Proof. repeat split; vm_compute; reflexivity. Qed.

Lemma wait_95 :
  wait_mf w_short 95 = 0 /\ wait_mf w_medium 95 = 0 /\ wait_mf w_long 95 = 1.
Proof. repeat split; vm_compute; reflexivity. Qed.

Lemma wait_25 :
  wait_mf w_short 25 = 1 /\ wait_mf w_medium 25 = 0 /\ wait_mf w_long 25 = 0.
Proof. repeat split; vm_compute; reflexivity. Qed.

(** Walks the rule base: one goal per rule whose consequent matches. *)
Ltac each_rule r Hin Hg :=
  simpl in Hin;
  repeat (destruct Hin as [Hin|Hin]; [subst r; simpl in Hg; try discriminate | ]);
  [ .. | destruct Hin ]; cbn [if_density if_wait].

(** *** What the controller returns on this engine *)

Lemma controller_returns (id : string) (density wait_time : Q) :
  compute_green_time (controller id) density wait_time
  = (Returned
       (Py.round1
          (Py.clip (infer (Py.clip density 0 100) (Py.clip wait_time 0 120))
                   MIN_GREEN_TIME MAX_GREEN_TIME)),
     [ControllerCall id density wait_time]).
Proof. rewrite compute_green_time_unfold. reflexivity. Qed.

Lemma rounded_clamp_mono (u v : Q) :
  u <= v ->
  Py.round1 (Py.clip u MIN_GREEN_TIME MAX_GREEN_TIME)
  <= Py.round1 (Py.clip v MIN_GREEN_TIME MAX_GREEN_TIME).
Proof. intro H. apply round1_mono, clip_mono, H. Qed.

Lemma rounded_clamp_saturates (v : Q) :
  60 <= v ->
  60 <= Py.round1 (Py.clip v MIN_GREEN_TIME MAX_GREEN_TIME).
Proof.
  intro H.
  apply Qle_trans with (Py.round1 (Py.clip 60 MIN_GREEN_TIME MAX_GREEN_TIME)).
  - vm_compute. discriminate.
  - apply rounded_clamp_mono, H.
Qed.

(** Density 85: only the long term fires, whatever the wait. *)
Lemma infer_high_density (w : Q) : 0 <= w -> w <= 120 -> 60 <= infer 85 w.
Proof.
  intros H1 H2. unfold infer, aggregated.
  destruct density_85 as (Dl & Dm & Dh).
  apply centroid_long_only.
  - apply term_strength_zero. intros r Hin Hg.
    each_rule r Hin Hg; left; rewrite ?Dl, ?Dm; lra.
  - apply term_strength_zero. intros r Hin Hg.
    each_rule r Hin Hg; left; rewrite ?Dl, ?Dm; lra.
  - destruct (wait_covered w H1 H2) as [Hw|[Hw|Hw]].
    + eapply Qlt_le_trans;
        [|apply (term_strength_ge 85 w d_high w_short g_long); simpl; auto 20].
      apply min_pos; [rewrite Dh; lra | exact Hw].
    + eapply Qlt_le_trans;
        [|apply (term_strength_ge 85 w d_high w_medium g_long); simpl; auto 20].
      apply min_pos; [rewrite Dh; lra | exact Hw].
    + eapply Qlt_le_trans;
        [|apply (term_strength_ge 85 w d_high w_long g_long); simpl; auto 20].
      apply min_pos; [rewrite Dh; lra | exact Hw].
  - apply term_strength_range.
Qed.

(** Wait 95 against wait 25 at the same density. *)
Lemma infer_long_wait (d : Q) :
  0 <= d -> d <= 100 ->
  60 <= infer d 95 \/ infer d 25 <= infer d 95.
Proof.
  intros H1 H2.
  destruct wait_95 as (Ls & Lm & Ll). destruct wait_25 as (Ss & Sm & Sl).
  destruct (Qlt_le_dec d 45) as [Hd|Hd].
  - right. apply Qle_trans with 40.
    + unfold infer, aggregated. apply centroid_without_long.
      * apply term_strength_zero. intros r Hin Hg.
        pose proof (density_high_zero d ltac:(lra)).
        each_rule r Hin Hg; first [left; assumption | right; rewrite ?Sm, ?Sl; lra].
      * apply term_strength_range.
      * apply term_strength_range.
      * left. eapply Qlt_le_trans;
          [|apply (term_strength_ge d 25 d_low w_short g_short); simpl; auto 20].
        apply min_pos; [apply density_low_pos; assumption | rewrite Ss; lra].
    + unfold infer, aggregated. apply centroid_without_short.
      * apply term_strength_zero. intros r Hin Hg.
        each_rule r Hin Hg; right; rewrite ?Ls; lra.
      * apply term_strength_range.
      * apply term_strength_range.
      * left. eapply Qlt_le_trans;
          [|apply (term_strength_ge d 95 d_low w_long g_medium); simpl; auto 20].
        apply min_pos; [apply density_low_pos; assumption | rewrite Ll; lra].
  - left. unfold infer, aggregated. apply centroid_long_only.
    + apply term_strength_zero. intros r Hin Hg.
      each_rule r Hin Hg; right; rewrite ?Ls; lra.
    + apply term_strength_zero. intros r Hin Hg.
      pose proof (density_low_zero d Hd).
      each_rule r Hin Hg; first [left; assumption | right; rewrite ?Ls, ?Lm; lra].
    + destruct (density_medium_or_high_pos d Hd H2) as [Hp|Hp].
      * eapply Qlt_le_trans;
          [|apply (term_strength_ge d 95 d_medium w_long g_long); simpl; auto 20].
        apply min_pos; [exact Hp | rewrite Ll; lra].
      * eapply Qlt_le_trans;
          [|apply (term_strength_ge d 95 d_high w_long g_long); simpl; auto 20].
        apply min_pos; [exact Hp | rewrite Ll; lra].
    + apply term_strength_range.
Qed.



(** C7.  On the engine above, for every wait value (in [0, 120] or not,
    inputs being clamped) the controller returns at density 85 at least
    what it returns at density 20, and for every density value it returns
    at wait 95 at least what it returns at wait 25. *)
Theorem monotonic_tendency (id : string) (density wait_time : Q) :
  (exists g_85 g_20,
      fst (compute_green_time (controller id) 85 wait_time) = Returned g_85
      /\ fst (compute_green_time (controller id) 20 wait_time) = Returned g_20
      /\ g_20 <= g_85)
  /\ (exists g_95 g_25,
         fst (compute_green_time (controller id) density 95) = Returned g_95
         /\ fst (compute_green_time (controller id) density 25) = Returned g_25
         /\ g_25 <= g_95).
Proof.
  rewrite !controller_returns. cbn [fst].
  pose proof (clip_bounds wait_time 0 120 ltac:(lra)) as [Hw0 Hw1].
  pose proof (clip_bounds density 0 100 ltac:(lra)) as [Hd0 Hd1].
  split; eexists; eexists; (split; [reflexivity|]); (split; [reflexivity|]).
  - apply Qle_trans with 60.
    + apply (rounded_clamp_in_range _).
    + apply rounded_clamp_saturates.
      change (Py.clip 85 0 100) with 85.
      apply infer_high_density; assumption.
  - change (Py.clip 95 0 120) with 95. change (Py.clip 25 0 120) with 25.
    destruct (infer_long_wait (Py.clip density 0 100) Hd0 Hd1) as [H|H].
    + apply Qle_trans with 60.
      * apply (rounded_clamp_in_range _).
      * apply rounded_clamp_saturates, H.
    + apply rounded_clamp_mono, H.
Qed.

(** ** Instances *)

Lemma lights_mutually_exclusive_witness :
  let s := TS.generate_traffic 1000 (ByDirection eastbound_request eastbound_request)
             (sample_simulation []) in
  get (TS.light_state s) horizontal = GREEN
  /\ ~ (get (TS.light_state s) horizontal = GREEN
        /\ get (TS.light_state s) vertical = GREEN).
Proof.
  cbv zeta. split; [reflexivity|].
  apply (lights_mutually_exclusive
           (fun _ _ => Returned 42)
           (TS.generate_traffic 1000 (ByDirection eastbound_request eastbound_request)
                                (sample_simulation []))).
  apply TS.reach_generate.
  apply (TS.reach_init (fun _ _ => Returned 42) (ByDirection 0.05 0.05)).
Defined.


Lemma green_time_inputs_witness :
  TS.update_lights yellow_phase_end
  = (Returned after_yellow_phase, snd (TS.update_lights yellow_phase_end))
  /\ get (TS.light_state yellow_phase_end) vertical <> GREEN
  /\ get (TS.light_state after_yellow_phase) vertical = GREEN
  /\ filter is_controller_call (snd (TS.update_lights yellow_phase_end))
     = [ControllerCall "vertical" (inject_Z 10) (Py.sum [7] / inject_Z 1)]
  /\ fst (compute_green_time (TS.controller_v yellow_phase_end)
                             (inject_Z 10) (Py.sum [7] / inject_Z 1))
     = Returned (TS.current_green_duration after_yellow_phase).
Proof.
  assert (Hu : TS.update_lights yellow_phase_end
               = (Returned after_yellow_phase, snd (TS.update_lights yellow_phase_end)))
    by (vm_compute; reflexivity).
  assert (Hb : get (TS.light_state yellow_phase_end) vertical <> GREEN)
    by (vm_compute; discriminate).
  assert (Ha : get (TS.light_state after_yellow_phase) vertical = GREEN)
    by (vm_compute; reflexivity).
  split; [exact Hu|]. split; [exact Hb|]. split; [exact Ha|].
  apply (proj2 (green_time_inputs yellow_phase_end after_yellow_phase
                                  (snd (TS.update_lights yellow_phase_end))
                                  vertical Hu Hb Ha)).
  vm_compute. discriminate.
Defined.

Lemma update_cars_agrees_with_snapshot_witness :
  earlier_moves_unnoticed (TS.light_state queue_at_red) (TS.cars queue_at_red)
                          [] (TS.cars queue_at_red) = true
  /\ Car.too_close_to follower leader = true
  /\ TS.update_cars queue_at_red = TS.update_cars_snapshot queue_at_red.
Proof.
  assert (H : earlier_moves_unnoticed (TS.light_state queue_at_red)
                                      (TS.cars queue_at_red)
                                      [] (TS.cars queue_at_red) = true)
    by (vm_compute; reflexivity).
  split; [exact H|]. split; [reflexivity|].
  apply (proj1 (update_cars_agrees_with_snapshot queue_at_red H)).
Defined.

Lemma failure_yields_fallback_witness :
  simulator failing_controller (Py.clip 50 0 100) (Py.clip 60 0 120)
  = Raised "Total area is zero in defuzzification!"
  /\ compute_green_time failing_controller 50 60
     = (Returned 30,
        [ControllerCall "horizontal" 50 60;
         FallbackNotice "horizontal" "Total area is zero in defuzzification!"]).
Proof.
  assert (H : simulator failing_controller (Py.clip 50 0 100) (Py.clip 60 0 120)
              = Raised "Total area is zero in defuzzification!")
    by reflexivity.
  split; [exact H|].
  apply (proj1 (failure_yields_fallback failing_controller 50 60 _ H)).
Defined.

(* ================================================================== *)
(** * Further properties of the modelled code *)
(* ================================================================== *)

(** ** What one [update] changes *)

Lemma mark_passed_frame (c : Car.t) :
  Car.lane (Car.mark_passed c) = Car.lane c
  /\ Car.id (Car.mark_passed c) = Car.id c
  /\ Car.direction (Car.mark_passed c) = Car.direction c
  /\ Car.speed (Car.mark_passed c) = Car.speed c
  /\ Car.color (Car.mark_passed c) = Car.color c
  /\ Car.x (Car.mark_passed c) = Car.x c
  /\ Car.y (Car.mark_passed c) = Car.y c
  /\ Car.max_speed (Car.mark_passed c) = Car.max_speed c.
Proof.
  unfold Car.mark_passed. destruct (_ && _); repeat split.
Qed.

Lemma should_stop_for_light_mark_passed (c : Car.t) (ls : signal) :
  Car.should_stop_for_light (Car.mark_passed c) ls = Car.should_stop_for_light c ls.
Proof.
  unfold Car.mark_passed. destruct (_ && _); reflexivity.
Qed.

(** What one [update] leaves alone and how it moves the vehicle: along the
    travel axis by the new speed, which is 0 or [max_speed]. *)
Lemma update_fields (c : Car.t) (ls : signal) (cars : list Car.t) :
  let c' := Car.update c ls cars in
  Car.lane c' = Car.lane c
  /\ Car.id c' = Car.id c
  /\ Car.direction c' = Car.direction c
  /\ Car.color c' = Car.color c
  /\ Car.max_speed c' = Car.max_speed c
  /\ across (Car.direction c) c' = across (Car.direction c) c
  /\ TS.along (Car.direction c) c' = TS.along (Car.direction c) c + Car.speed c'
  /\ (Car.speed c' = 0 \/ Car.speed c' = Car.max_speed c).
Proof.
  cbv zeta.
  destruct (mark_passed_frame c) as (Hl & Hi & Hd & _ & Hc & Hx & Hy & Hm).
  pose proof (update_speed c ls cars) as Hs.
  assert (F : forall m : Car.t,
             Car.lane m = Car.lane c -> Car.id m = Car.id c ->
             Car.direction m = Car.direction c -> Car.color m = Car.color c ->
             Car.max_speed m = Car.max_speed c ->
             Car.x m = Car.x c -> Car.y m = Car.y c ->
             let c' := match Car.direction m with
                       | horizontal => Car.set_x (Car.x m + Car.speed m) m
                       | vertical => Car.set_y (Car.y m + Car.speed m) m
                       end in
             Car.lane c' = Car.lane c /\ Car.id c' = Car.id c
             /\ Car.direction c' = Car.direction c /\ Car.color c' = Car.color c
             /\ Car.max_speed c' = Car.max_speed c
             /\ across (Car.direction c) c' = across (Car.direction c) c
             /\ TS.along (Car.direction c) c'
                = TS.along (Car.direction c) c + Car.speed c').
  { intros m A1 A2 A3 A4 A5 A6 A7. cbv zeta. rewrite A3.
    destruct (Car.direction c); simpl; rewrite ?A6, ?A7; repeat split; assumption. }
  assert (G : Car.speed (Car.update c ls cars) = 0
              \/ Car.speed (Car.update c ls cars) = Car.max_speed c).
  { rewrite Hs. destruct (Car.should_stop _ _ _); auto. }
  unfold Car.update in *.
  destruct (Car.should_stop (Car.mark_passed c) ls cars).
  - destruct (negb (Car.passed_intersection (Car.set_speed 0 (Car.mark_passed c)))).
    + destruct (F (Car.set_waiting_time
                     (Car.waiting_time (Car.set_speed 0 (Car.mark_passed c)) + 0.1)
                     (Car.set_speed 0 (Car.mark_passed c))))
        as (B1 & B2 & B3 & B4 & B5 & B6 & B7); auto.
      repeat split; auto.
    + destruct (F (Car.set_speed 0 (Car.mark_passed c)))
        as (B1 & B2 & B3 & B4 & B5 & B6 & B7); auto.
      repeat split; auto.
  - destruct (F (Car.set_speed (Car.max_speed (Car.mark_passed c)) (Car.mark_passed c)))
      as (B1 & B2 & B3 & B4 & B5 & B6 & B7); auto.
    repeat split; auto.
Qed.

(** X1.  Over any number of ticks a vehicle keeps its lane, identifier,
    direction, colour and top speed and its position across the travel
    axis; along the axis it never goes backwards. *)
Theorem vehicle_identity_is_fixed (c : Car.t) (envs : list (signal * list Car.t)) :
  let c' := car_after c envs in
  Car.lane c' = Car.lane c
  /\ Car.id c' = Car.id c
  /\ Car.direction c' = Car.direction c
  /\ Car.color c' = Car.color c
  /\ Car.max_speed c' = Car.max_speed c
  /\ across (Car.direction c) c' = across (Car.direction c) c
  /\ (0 <= Car.max_speed c ->
      TS.along (Car.direction c) c <= TS.along (Car.direction c) c')
  /\ (Car.max_speed c <= 0 ->
      TS.along (Car.direction c) c' <= TS.along (Car.direction c) c).
Proof.
  revert c. induction envs as [|[ls cars] rest IH]; intro c; simpl car_after.
  - cbv zeta. repeat split; auto; intros; lra.
  - destruct (update_fields c ls cars) as (Hl & Hi & Hd & Hc & Hm & Hx & Ha & Hsp).
    specialize (IH (Car.update c ls cars)). cbv zeta in IH.
    rewrite Hl, Hi, Hd, Hc, Hm, Hx, Ha in IH.
    destruct IH as (I1 & I2 & I3 & I4 & I5 & I6 & I7 & I8).
    cbv zeta. repeat split; auto.
    + intro Hp. specialize (I7 Hp). destruct Hsp as [Hz|Hz]; rewrite Hz in I7; lra.
    + intro Hn. specialize (I8 Hn). destruct Hsp as [Hz|Hz]; rewrite Hz in I8; lra.
Qed.

Lemma is_too_close_mark_passed (c : Car.t) (l : list Car.t) :
  Car.is_too_close_to_car_ahead (Car.mark_passed c) l
  = Car.is_too_close_to_car_ahead c l.
Proof.
  induction l as [|o l IH]; simpl; [reflexivity|].
  now rewrite too_close_to_mark_passed, IH.
Qed.

Lemma is_too_close_found (c o : Car.t) (l : list Car.t) :
  In o l -> Car.too_close_to c o = true ->
  Car.is_too_close_to_car_ahead c l = true.
Proof.
  induction l as [|a l IH]; intros Hin Ht; [destruct Hin|].
  simpl. destruct Hin as [->|Hin].
  - now rewrite Ht.
  - destruct (Car.too_close_to c a); [reflexivity | now apply IH].
Qed.

Lemma should_stop_unmarked (c : Car.t) (ls : signal) (cars : list Car.t) :
  Car.should_stop (Car.mark_passed c) ls cars
  = Car.should_stop_for_light c ls || Car.is_too_close_to_car_ahead c cars.
Proof.
  unfold Car.should_stop.
  now rewrite should_stop_for_light_mark_passed, is_too_close_mark_passed.
Qed.

Lemma abs_bound (v b : Q) : Qabs v <= b -> - b <= v /\ v <= b.
Proof. intro H. apply Qabs_Qle_condition in H. exact H. Qed.

(** ** Stopping at the light *)

Lemma before_stop_line_step (c : Car.t) (ls : signal) (cars : list Car.t) :
  Qabs (Car.max_speed c) <= Car.STOP_LINE_OFFSET ->
  ls <> GREEN ->
  before_stop_line c = true ->
  before_stop_line (Car.update c ls cars) = true.
Proof.
  intros Hms Hls Hb.
  apply abs_bound in Hms as [Hlo Hhi]. unfold Car.STOP_LINE_OFFSET in *.
  destruct (update_fields c ls cars) as (_ & _ & Hd & _ & Hm & _ & Ha & Hsp).
  pose proof (update_speed c ls cars) as Hs.
  rewrite should_stop_unmarked in Hs.
  unfold before_stop_line in *. rewrite Hd, Hm.
  assert (Hne : signal_eqb ls GREEN = false) by (destruct ls; simpl; congruence).
  unfold Car.should_stop_for_light, Car.get_stop_line_position in Hs.
  rewrite Hne in Hs. unfold Car.STOP_LINE_OFFSET in Hs.
  destruct (Car.direction c); simpl in Ha; rewrite Ha;
    (destruct (Py.ltb 0 (Car.max_speed c)) eqn:Sg;
     [apply ltb_true in Sg | apply ltb_false in Sg]);
    apply Qle_bool_iff in Hb; apply Qle_bool_iff;
    match type of Hs with
    | context [Qle_bool ?a ?b && Qle_bool ?b' ?c'] =>
        (destruct (Qle_bool a b) eqn:E1;
         [apply Qle_bool_iff in E1 | apply leb_false in E1]);
        (destruct (Qle_bool b' c') eqn:E2;
         [apply Qle_bool_iff in E2 | apply leb_false in E2])
    end;
    simpl in Hs; try (rewrite Hs; lra);
    destruct Hsp as [Hz|Hz]; rewrite Hz; lra.
Qed.

(** X2.  While its light is not GREEN, a vehicle that has not gone past
    its stop line does not go past it, however many ticks go by and
    whatever the other vehicles do (for any top speed of at most the width
    of the stop band, 50; the vehicles of the simulation have 2.5). *)
Theorem never_runs_the_light (c : Car.t) (envs : list (signal * list Car.t)) :
  Qabs (Car.max_speed c) <= Car.STOP_LINE_OFFSET ->
  (forall e, In e envs -> fst e <> GREEN) ->
  before_stop_line c = true ->
  before_stop_line (car_after c envs) = true.
Proof.
  revert c. induction envs as [|[ls cars] rest IH]; intros c Hms Hred Hb; simpl.
  - exact Hb.
  - apply IH.
    + destruct (update_fields c ls cars) as (_ & _ & _ & _ & Hm & _).
      rewrite Hm. exact Hms.
    + intros e He. apply Hred. now right.
    + apply before_stop_line_step; auto.
      apply (Hred (ls, cars)). now left.
Qed.

(** ** Keeping distance *)

(** X3.  A follower whose same-lane leader is in the list it is updated
    against never closes in to less than MIN_SPACING - MAX_SPEED = 37.5
    (vehicles are 30 long), and an update of the leader, travelling the
    same way, never shortens the distance. *)
Theorem headway_is_kept (f l : Car.t) (ls : signal) (cars : list Car.t) :
  In l cars ->
  Car.id l <> Car.id f ->
  Car.direction l = Car.direction f ->
  same_lane f l = true ->
  Qabs (Car.max_speed f) <= Car.MAX_SPEED ->
  Car.MIN_SPACING - Car.MAX_SPEED <= headway f l ->
  Car.MIN_SPACING - Car.MAX_SPEED <= headway (Car.update f ls cars) l
  /\ forall ls' cars',
      Py.ltb 0 (Car.max_speed l) = Py.ltb 0 (Car.max_speed f) ->
      headway f l <= headway f (Car.update l ls' cars').
Proof.
  intros Hin Hid Hdir Hlane Hms Hgap.
  apply abs_bound in Hms as [Hlo Hhi].
  unfold Car.MIN_SPACING, Car.MAX_SPEED in *.
  split.
  - destruct (update_fields f ls cars) as (_ & _ & Hd & _ & Hm & _ & Ha & Hsp).
    pose proof (update_speed f ls cars) as Hs.
    rewrite should_stop_unmarked in Hs.
    unfold headway in *. rewrite Hd, Hm, Ha.
    remember (Py.ltb 0 (Car.max_speed f)) as sg eqn:Sg.
    assert (Hstop : headway f l < 40 -> 0 < headway f l ->
                    Car.speed (Car.update f ls cars) = 0).
    { unfold headway. rewrite <- Sg. intros Hnear Hpos.
      assert (Ht : Car.too_close_to f l = true).
      { unfold Car.too_close_to, Car.MIN_SPACING.
        replace (Z.eqb (Car.id l) (Car.id f)) with false
          by (symmetry; apply Z.eqb_neq; exact Hid).
        rewrite Hdir.
        replace (direction_eqb (Car.direction f) (Car.direction f)) with true
          by (destruct (Car.direction f); reflexivity).
        simpl. unfold same_lane in Hlane. rewrite <- Sg.
        destruct (Car.direction f); simpl in *; rewrite Hlane; simpl;
          destruct sg; apply andb_true_iff; split; apply ltb_true; lra. }
      rewrite (is_too_close_found f l cars Hin Ht), orb_true_r in Hs.
      exact Hs. }
    unfold headway in Hstop. rewrite <- Sg in Hstop.
    destruct sg; symmetry in Sg;
      [apply ltb_true in Sg | apply ltb_false in Sg];
      match type of Hstop with
      | ?h < 40 -> _ =>
          destruct (Qlt_le_dec h 40) as [Hnear|Hfar];
          [rewrite (Hstop Hnear ltac:(lra)); lra
          | destruct Hsp as [Hz|Hz]; rewrite Hz; lra]
      end.
  - intros ls' cars' Hsame.
    destruct (update_fields l ls' cars') as (_ & _ & _ & _ & _ & _ & Ha & Hsp).
    unfold headway. rewrite <- Hdir, Ha, <- Hsame.
    (destruct (Py.ltb 0 (Car.max_speed l)) eqn:Sg;
     [apply ltb_true in Sg | apply ltb_false in Sg]);
      destruct Hsp as [Hz|Hz]; rewrite Hz; lra.
Qed.

(** ** Moving or waiting *)

(** X4.  In every tick a vehicle either advances by [max_speed] or stands
    still, and while it has not passed the intersection every standing
    tick adds 0.1 to [waiting_time]: after n updates the vehicle has made k
    moves and accumulated j waiting ticks with k + j <= n, and k + j = n as
    long as [passed_intersection] is still false. *)
Theorem moves_and_waits_add_up (c : Car.t) (envs : list (signal * list Car.t)) :
  exists k j : nat,
    (k + j <= List.length envs)%nat
    /\ TS.along (Car.direction c) (car_after c envs)
       == TS.along (Car.direction c) c + inject_Z (Z.of_nat k) * Car.max_speed c
    /\ Car.waiting_time (car_after c envs)
       == Car.waiting_time c + inject_Z (Z.of_nat j) * 0.1
    /\ (Car.passed_intersection (car_after c envs) = false ->
        (k + j = List.length envs)%nat).
Proof.
  revert c. induction envs as [|[ls cars] rest IH]; intro c; simpl car_after.
  - exists 0%nat, 0%nat. simpl. change (inject_Z 0) with 0.
    repeat split; auto; lra.
  - destruct (IH (Car.update c ls cars)) as (k & j & Hle & Hx & Hw & Hp).
    destruct (update_fields c ls cars) as (_ & _ & Hd & _ & Hm & _ & Ha & _).
    pose proof (update_speed c ls cars) as Hs.
    pose proof (update_waiting_time c ls cars) as Hwt.
    pose proof (update_passed_intersection c ls cars) as Hpi.
    rewrite Hd, Hm, Ha in Hx. rewrite Hwt in Hw.
    destruct (Car.should_stop (Car.mark_passed c) ls cars).
    + destruct (Car.passed_intersection (Car.mark_passed c)) eqn:Pm; simpl in Hw.
      * exists k, j. simpl List.length. rewrite Hs in Hx.
        split; [lia|]. split; [rewrite Hx; lra|]. split; [exact Hw|].
        intro Hf.
        assert (Pu : Car.passed_intersection (Car.update c ls cars) = true)
          by congruence.
        rewrite (proj1 (passed_stays _ rest Pu)) in Hf. discriminate.
      * exists k, (S j). simpl List.length. rewrite Hs in Hx.
        split; [lia|]. split; [rewrite Hx; lra|].
        split.
        -- rewrite Hw, Nat2Z.inj_succ. unfold Z.succ. rewrite inject_Z_plus.
           change (inject_Z 1) with 1. lra.
        -- intro Hf. specialize (Hp Hf). lia.
    + simpl in Hw. exists (S k), j. simpl List.length. rewrite Hs in Hx.
      split; [lia|]. split.
      * rewrite Hx, Nat2Z.inj_succ. unfold Z.succ. rewrite inject_Z_plus.
        change (inject_Z 1) with 1. lra.
      * split; [exact Hw|]. intro Hf. specialize (Hp Hf). lia.
Qed.

(** ** The vehicle list after [update_cars] *)

Lemma loop_survivors (ls : by_direction signal) (todo done : list Car.t) (c' : Car.t) :
  In c' (TS.update_cars_loop ls done todo) ->
  In c' done
  \/ exists c live,
      In c todo
      /\ c' = Car.update c (get ls (Car.direction c)) live
      /\ Car.is_off_screen c' = false.
Proof.
  revert done. induction todo as [|c rest IH]; intros done Hin; simpl in Hin.
  - now left.
  - destruct (Car.is_off_screen (Car.update c _ _)) eqn:Off.
    + destruct (IH _ Hin) as [H|(c0 & live & H0 & H1 & H2)]; [now left|].
      right. exists c0, live. repeat split; auto. now right.
    + destruct (IH _ Hin) as [H|(c0 & live & H0 & H1 & H2)].
      * apply in_app_or in H as [H|[H|[]]]; [now left|].
        right. exists c, (done ++ c :: rest). subst c'.
        repeat split; auto. now left.
      * right. exists c0, live. repeat split; auto. now right.
Qed.

Lemma loop_length (ls : by_direction signal) (todo done : list Car.t) :
  (List.length (TS.update_cars_loop ls done todo)
   <= List.length done + List.length todo)%nat.
Proof.
  revert done. induction todo as [|c rest IH]; intro done; simpl; [lia|].
  destruct (Car.is_off_screen _).
  - specialize (IH done). lia.
  - specialize (IH (done ++ [Car.update c (get ls (Car.direction c)) (done ++ c :: rest)])).
    rewrite length_app in IH. simpl in IH. lia.
Qed.

Lemma update_id (c : Car.t) (ls : signal) (cars : list Car.t) :
  Car.id (Car.update c ls cars) = Car.id c.
Proof. apply (update_fields c ls cars). Qed.

Lemma loop_ids (ls : by_direction signal) (todo done : list Car.t) :
  NoDup (map Car.id (done ++ todo)) ->
  NoDup (map Car.id (TS.update_cars_loop ls done todo))
  /\ incl (map Car.id (TS.update_cars_loop ls done todo)) (map Car.id (done ++ todo)).
Proof.
  revert done. induction todo as [|c rest IH]; intros done Hnd; simpl.
  - rewrite app_nil_r in *. split; [exact Hnd | apply incl_refl].
  - destruct (Car.is_off_screen _).
    + destruct (IH done) as [H1 H2].
      * rewrite map_app in *. simpl in Hnd. now apply NoDup_remove_1 in Hnd.
      * split; [exact H1|]. intros i Hi. apply H2 in Hi.
        rewrite map_app in *. simpl. apply in_app_or in Hi as [Hi|Hi];
          apply in_or_app; [now left | right; now right].
    + set (c' := Car.update c (get ls (Car.direction c)) (done ++ c :: rest)).
      assert (E : map Car.id ((done ++ [c']) ++ rest) = map Car.id (done ++ c :: rest)).
      { rewrite <- app_assoc. simpl. rewrite !map_app. simpl.
        unfold c'. now rewrite update_id. }
      destruct (IH (done ++ [c'])) as [H1 H2]; [rewrite E; exact Hnd|].
      split; [exact H1|]. rewrite <- E. exact H2.
Qed.

Lemma update_cars_survivors_aux (s : TS.t) :
  (forall c', In c' (TS.cars (TS.update_cars s)) ->
              Car.is_off_screen c' = false
              /\ exists c live,
                  In c (TS.cars s)
                  /\ c' = Car.update c (get (TS.light_state s) (Car.direction c)) live
                  /\ Car.id c' = Car.id c)
  /\ (NoDup (map Car.id (TS.cars s)) ->
      NoDup (map Car.id (TS.cars (TS.update_cars s)))).
Proof.
  unfold TS.update_cars. simpl TS.cars. split.
  - intros c' Hin.
    apply loop_survivors in Hin as [[]|(c & live & H0 & H1 & H2)].
    split; [exact H2|]. exists c, live. repeat split; auto.
    subst c'. apply update_id.
  - intro Hnd. apply (loop_ids (TS.light_state s) (TS.cars s) [] Hnd).
Qed.

(** X5.  After [update_cars] no vehicle of the list is off screen, every
    vehicle left is the update of a vehicle that was there before and
    carries its identifier (none is created), the list is no longer than
    before, distinct identifiers stay distinct, and nothing but the vehicle
    list has changed. *)
Theorem update_cars_postcondition (s : TS.t) :
  let s' := TS.update_cars s in
  (forall c', In c' (TS.cars s') ->
              Car.is_off_screen c' = false
              /\ exists c live,
                  In c (TS.cars s)
                  /\ c' = Car.update c (get (TS.light_state s) (Car.direction c)) live
                  /\ Car.id c' = Car.id c)
  /\ (List.length (TS.cars s') <= List.length (TS.cars s))%nat
  /\ (NoDup (map Car.id (TS.cars s)) -> NoDup (map Car.id (TS.cars s')))
  /\ TS.set_cars (TS.cars s) s' = s.
Proof.
  cbv zeta. destruct (update_cars_survivors_aux s) as [H1 H2].
  split; [exact H1|]. split; [|split; [exact H2|]].
  - apply (loop_length (TS.light_state s) (TS.cars s) []).
  - destruct s; reflexivity.
Qed.

(** ** Where vehicles are spawned *)

Lemma init_fields (lane : lane_name) (car_id : Z) (d : Direction)
      (color : nat) (offset : Z) :
  let c := Car.__init__ lane car_id d color offset in
  Car.direction c = d
  /\ Car.id c = car_id
  /\ Car.waiting_time c = 0
  /\ Car.passed_intersection c = false
  /\ (Car.max_speed c = Car.MAX_SPEED \/ Car.max_speed c = - Car.MAX_SPEED)
  /\ (TS.along d c
      = (if Py.ltb 0 (Car.max_speed c) then -100 - inject_Z offset
         else match d with
              | horizontal => 1100 + inject_Z offset
              | vertical => 800 + inject_Z offset
              end)).
Proof.
  cbv zeta. unfold Car.__init__, Car._set_initial_position.
  destruct d, lane; simpl; repeat split; auto.
Qed.

(** X6.  A vehicle created with a spawn offset of 103 or more (the offset
    is drawn from 0..300) is already beyond the off-screen margin: its
    first update leaves it off screen whatever the light and the other
    vehicles, so the first [update_cars] drops it; with an offset of at
    most 100 it is on screen after its first update. *)
Theorem distant_spawn_is_dropped
        (lane : lane_name) (car_id : Z) (d : Direction) (color : nat) (offset : Z)
        (ls : by_direction signal) :
  (103 <= offset)%Z ->
  let c := Car.__init__ lane car_id d color offset in
  (forall light cars, Car.is_off_screen (Car.update c light cars) = true)
  /\ (forall done rest,
         TS.update_cars_loop ls done (c :: rest) = TS.update_cars_loop ls done rest)
  /\ (forall near light cars,
         (0 <= near <= 100)%Z ->
         Car.is_off_screen
           (Car.update (Car.__init__ lane car_id d color near) light cars) = false).
Proof.
  intros Hoff c.
  assert (Off : forall light cars, Car.is_off_screen (Car.update c light cars) = true).
  { intros light cars.
    destruct (init_fields lane car_id d color offset) as (Hd & _ & _ & _ & Hm & Ha).
    fold c in Hd, Hm, Ha.
    destruct (update_fields c light cars) as (_ & _ & Hd' & _ & _ & _ & Hx & Hsp).
    rewrite Hd in Hx. rewrite Hd in Hd'.
    assert (Hq : 103 <= inject_Z offset).
    { change 103 with (inject_Z 103). now rewrite <- Zle_Qle. }
    unfold Car.is_off_screen. rewrite Hd'.
    unfold Car.MAX_SPEED in Hm.
    destruct d; simpl in Hx, Ha; rewrite Hx, Ha;
      destruct Hm as [Hm|Hm]; rewrite Hm in *;
      (destruct (Py.ltb 0 _) eqn:Sg;
       [apply ltb_true in Sg | apply ltb_false in Sg]); try lra;
      apply orb_true_iff;
      first [ left; apply ltb_true; destruct Hsp as [Hz|Hz]; rewrite Hz; lra
            | right; apply ltb_true; destruct Hsp as [Hz|Hz]; rewrite Hz; lra ]. }
  split; [exact Off|]. split.
  - intros done rest. simpl. now rewrite Off.
  - intros near light cars [Hn0 Hn1].
    set (c0 := Car.__init__ lane car_id d color near).
    destruct (init_fields lane car_id d color near) as (Hd & _ & _ & _ & Hm & Ha).
    fold c0 in Hd, Hm, Ha.
    destruct (update_fields c0 light cars) as (_ & _ & Hd' & _ & _ & _ & Hx & Hsp).
    rewrite Hd in Hx. rewrite Hd in Hd'.
    assert (Hq0 : 0 <= inject_Z near).
    { change 0 with (inject_Z 0). now rewrite <- Zle_Qle. }
    assert (Hq1 : inject_Z near <= 100).
    { change 100 with (inject_Z 100). now rewrite <- Zle_Qle. }
    unfold Car.is_off_screen. rewrite Hd'.
    unfold Car.MAX_SPEED in Hm.
    destruct d; simpl in Hx, Ha; rewrite Hx, Ha;
      destruct Hm as [Hm|Hm]; rewrite Hm in *;
      (destruct (Py.ltb 0 _) eqn:Sg;
       [apply ltb_true in Sg | apply ltb_false in Sg]); try lra;
      apply orb_false_iff; split; apply ltb_false;
      destruct Hsp as [Hz|Hz]; rewrite Hz; lra.
Qed.

(** ** The light state machine, branch by branch *)

Lemma advanced_frame (s : TS.t) :
  TS.next_car_id (advanced s) = TS.next_car_id s
  /\ TS.spawn_rates (advanced s) = TS.spawn_rates s
  /\ TS.last_spawn (advanced s) = TS.last_spawn s
  /\ TS.lights (advanced s)
     = ByDirection
         (TrafficLight.update
            (at_h (TS.light_state s))
            (Py.max 0 (shown_time s (at_h (TS.light_state s)) (TS.light_timer s + 0.1))))
         (TrafficLight.update
            (at_v (TS.light_state s))
            (Py.max 0 (shown_time s (at_v (TS.light_state s)) (TS.light_timer s + 0.1)))).
Proof.
  repeat split.
Qed.

Lemma calculate_green_time_bounded (s : TS.t) (d : Direction) :
  exists g tr,
    TS._calculate_green_time s d = (Returned (TS.set_current_green_duration g s), tr)
    /\ 15 <= g <= 60.
Proof.
  destruct (calculate_green_time_spec s d)
    as [[_ H]|[_ (g & rest & Hc & _ & r & _ & H)]].
  - rewrite H. eexists; eexists. split; [reflexivity | lra].
  - rewrite H. exists g; eexists. split; [reflexivity|].
    match type of Hc with
    | compute_green_time ?ctl ?a ?b = _ =>
        destruct (compute_green_time_shape ctl a b) as (g' & rest' & Hc' & _ & Hb)
    end.
    rewrite Hc in Hc'. injection Hc' as -> _. exact Hb.
Qed.

(** The part of the state [update_lights] never touches, and the only
    values it can give to the timer and to the green duration. *)
Lemma update_lights_frame (s s' : TS.t) (tr : list event) :
  TS.update_lights s = (Returned s', tr) ->
  TS.cars s' = TS.cars s
  /\ TS.next_car_id s' = TS.next_car_id s
  /\ TS.controller_h s' = TS.controller_h s
  /\ TS.controller_v s' = TS.controller_v s
  /\ TS.yellow_duration s' = TS.yellow_duration s
  /\ TS.spawn_rates s' = TS.spawn_rates s
  /\ TS.last_spawn s' = TS.last_spawn s
  /\ TS.lights s' = TS.lights (advanced s)
  /\ (TS.light_timer s' = 0 \/ TS.light_timer s' = TS.light_timer s + 0.1)
  /\ (TS.current_green_duration s' = TS.current_green_duration s
      \/ 15 <= TS.current_green_duration s' <= 60).
Proof.
  unfold TS.update_lights. fold (advanced s).
  destruct (advanced_fields s) as (Hls & Hcars & Hch & Hcv & Htm & Hgd & Hyd).
  destruct (advanced_frame s) as (Hid & Hsr & Hlsp & _).
  remember (advanced s) as a eqn:Ha. clear Ha.
  intro H.
  repeat match type of H with
         | (if ?b then _ else _) = _ => destruct b
         end;
    try (injection H as <- _; simpl;
         rewrite ?Hcars, ?Hch, ?Hcv, ?Hyd, ?Hid, ?Hsr, ?Hlsp, ?Htm, ?Hgd;
         repeat split; auto);
    match type of H with
    | TS._calculate_green_time ?s0 ?d = _ =>
        destruct (calculate_green_time_bounded s0 d) as (g & tr' & Hc & Hb);
        rewrite Hc in H; injection H as <- _; simpl;
        rewrite ?Hcars, ?Hch, ?Hcv, ?Hyd, ?Hid, ?Hsr, ?Hlsp;
        repeat split; auto
    end.
Qed.

(** X7.  From a state showing one of the four phases, [update_lights]
    advances the timer by 0.1 and then either stays in the phase (timer
    still below the phase's duration; nothing else changes, nothing is
    printed) or moves to the next phase of the cycle
    H-GREEN, H-YELLOW, V-GREEN, V-YELLOW and resets the timer to 0; the
    green duration changes only when a YELLOW phase ends, and then lies in
    [15, 60]. *)
Theorem lights_follow_the_cycle (s s' : TS.t) (tr : list event) (p : phase) :
  TS.light_state s = lights_of p ->
  TS.update_lights s = (Returned s', tr) ->
  let t := TS.light_timer s + 0.1 in
  (phase_duration s p <= t
   /\ TS.light_state s' = lights_of (next_phase p)
   /\ TS.light_timer s' = 0
   /\ match p with
      | H_GREEN | V_GREEN =>
          TS.current_green_duration s' = TS.current_green_duration s /\ tr = []
      | H_YELLOW | V_YELLOW =>
          15 <= TS.current_green_duration s' <= 60
      end)
  \/ (t < phase_duration s p
      /\ TS.light_state s' = TS.light_state s
      /\ TS.light_timer s' = t
      /\ TS.current_green_duration s' = TS.current_green_duration s
      /\ tr = []).
Proof.
  intros Hp. unfold TS.update_lights. fold (advanced s).
  destruct (advanced_fields s) as (Hls & Hcars & Hch & Hcv & Htm & Hgd & Hyd).
  remember (advanced s) as a eqn:Ha. clear Ha.
  rewrite Hls, Hp, Hgd, Hyd, Htm. cbv zeta.
  destruct p; simpl;
    match goal with
    | |- context [Qle_bool ?u ?v] =>
        destruct (Qle_bool u v) eqn:E;
        [apply Qle_bool_iff in E | apply leb_false in E]
    end; simpl; intro H;
    try (injection H as <- <-; simpl;
         rewrite ?Hls, ?Hp, ?Hgd, ?Htm; first [left; now auto | right; now auto]);
    match type of H with
    | TS._calculate_green_time ?s0 ?d = _ =>
        destruct (calculate_green_time_bounded s0 d) as (g & tr' & Hc & Hb);
        rewrite Hc in H; injection H as <- _; simpl;
        rewrite ?Hls, ?Hp; left; now auto
    end.
Qed.

(** X8.  The displays are refreshed before the transition is taken: after
    [update_lights] each display shows the colour its direction had when
    the call began, with the time left in that phase at the advanced timer,
    never negative and 0 for RED. *)
Theorem display_shows_previous_state (s s' : TS.t) (tr : list event) (d : Direction) :
  TS.update_lights s = (Returned s', tr) ->
  let shown := get (TS.lights s') d in
  TrafficLight.state shown = get (TS.light_state s) d
  /\ TrafficLight.time_remaining shown
     == Py.max 0 (shown_time s (get (TS.light_state s) d) (TS.light_timer s + 0.1))
  /\ 0 <= TrafficLight.time_remaining shown
  /\ (get (TS.light_state s) d = RED -> TrafficLight.time_remaining shown == 0).
Proof.
  intros H. cbv zeta.
  destruct (update_lights_frame s s' tr H) as (_ & _ & _ & _ & _ & _ & _ & Hl & _).
  destruct (advanced_frame s) as (_ & _ & _ & Ha).
  rewrite Hl, Ha.
  assert (Idem : forall v, Py.max 0 (Py.max 0 v) == Py.max 0 v).
  { intro v. apply Qle_antisym.
    - apply max_lub; [apply max_ge_l | lra].
    - apply max_ge_r. }
  destruct d; simpl; (split; [reflexivity|]); (split; [apply Idem|]);
    (split; [apply max_ge_l|]); intros ->; reflexivity.
Qed.

(** ** Spawning, step by step *)

(** One pass of the spawn loop either changes nothing at all or appends
    one vehicle carrying [next_car_id]. *)
Lemma generate_traffic_for_outcome (t : Z) (dr : TS.draw) (s : TS.t) (d : Direction) :
  TS.generate_traffic_for t dr s d = s
  \/ exists new_car,
      Car.id new_car = TS.next_car_id s
      /\ Car.waiting_time new_car = 0
      /\ Car.direction new_car = d
      /\ TS._is_spawn_blocked s new_car = false
      /\ (500 < t - get (TS.last_spawn s) d)%Z
      /\ TS.generate_traffic_for t dr s d
         = TS.set_last_spawn (set (TS.last_spawn s) d t)
             (TS.set_next_car_id (TS.next_car_id s + 1)%Z
                (TS.set_cars (TS.cars s ++ [new_car]) s)).
Proof.
  unfold TS.generate_traffic_for.
  destruct (Py.ltb _ _ && Z.ltb _ _) eqn:C; [|now left].
  apply andb_true_iff in C as [_ C]. apply Z.ltb_lt in C.
  match goal with |- context [TS._is_spawn_blocked s ?c] => set (new_car := c) end.
  destruct (TS._is_spawn_blocked s new_car) eqn:B; simpl; [now left|].
  right. exists new_car.
  destruct (init_fields
              (match d with
               | horizontal => if TS.second_lane dr then west else east
               | vertical => if TS.second_lane dr then south else north
               end)
              (TS.next_car_id s) d (TS.color_pick dr) (TS.offset_pick dr))
    as (Hd & Hi & Hw & _).
  repeat split; auto.
Qed.

(** X9.  A spawn attempt that appends nothing leaves the whole state as it
    was (no identifier is used up, the spawn clock is not touched).  One
    that appends a vehicle uses up exactly one identifier and sets the
    direction's spawn clock, and until more than 500 ms have gone by every
    further attempt for that direction does nothing, whatever is drawn. *)
Theorem spawn_is_throttled (t : Z) (dr : TS.draw) (s : TS.t) (d : Direction) :
  let s1 := TS.generate_traffic_for t dr s d in
  (TS.cars s1 = TS.cars s -> s1 = s)
  /\ (TS.cars s1 <> TS.cars s ->
      TS.next_car_id s1 = (TS.next_car_id s + 1)%Z
      /\ List.length (TS.cars s1) = S (List.length (TS.cars s))
      /\ get (TS.last_spawn s1) d = t
      /\ forall t' dr', (t' <= t + 500)%Z -> TS.generate_traffic_for t' dr' s1 d = s1).
Proof.
  cbv zeta.
  destruct (generate_traffic_for_outcome t dr s d)
    as [H|(new_car & _ & _ & _ & _ & _ & H)]; rewrite H.
  - split; [reflexivity | intro C; now elim C].
  - simpl. split.
    + intro C. exfalso. apply (f_equal (@List.length _)) in C.
      rewrite length_app in C. simpl in C. lia.
    + intros _. split; [reflexivity|]. split.
      { rewrite length_app. simpl. lia. }
      split; [destruct d; reflexivity|].
      intros t' dr' Ht. unfold TS.generate_traffic_for at 1. simpl.
      replace (Z.ltb 500 (t' - get (set (TS.last_spawn s) d t) d)) with false.
      * now rewrite andb_false_r.
      * symmetry. apply Z.ltb_ge. destruct d; simpl; lia.
Qed.

(** ** What holds in every reachable state *)

Lemma sum_waiting_nonneg (l : list Car.t) :
  (forall c, In c l -> 0 <= Car.waiting_time c) ->
  0 <= Py.sum (map Car.waiting_time l).
Proof.
  induction l as [|c l IH]; intro H; simpl; [lra|].
  assert (0 <= Car.waiting_time c) by (apply H; now left).
  assert (0 <= Py.sum (map Car.waiting_time l)) by (apply IH; intros; apply H; now right).
  lra.
Qed.

Lemma nodup_snoc (l : list Z) (i : Z) : NoDup l -> ~ In i l -> NoDup (l ++ [i]).
Proof.
  induction l as [|a l IH]; intros Hnd Hni; simpl.
  - constructor; [intros [] | constructor].
  - inversion Hnd; subst. constructor.
    + intro Hin. apply in_app_or in Hin as [Hin|[Hin|[]]]; [contradiction|].
      apply Hni. now left.
    + apply IH; auto. intro Hin. apply Hni. now right.
Qed.

Lemma generate_traffic_for_sane (t : Z) (dr : TS.draw) (s : TS.t) (d : Direction) :
  ids_fresh s ->
  (forall c, In c (TS.cars s) -> 0 <= Car.waiting_time c) ->
  let s1 := TS.generate_traffic_for t dr s d in
  ids_fresh s1
  /\ (forall c, In c (TS.cars s1) -> 0 <= Car.waiting_time c)
  /\ TS.current_green_duration s1 = TS.current_green_duration s
  /\ TS.yellow_duration s1 = TS.yellow_duration s
  /\ TS.light_timer s1 = TS.light_timer s
  /\ TS.light_state s1 = TS.light_state s
  /\ TS.controller_h s1 = TS.controller_h s
  /\ TS.controller_v s1 = TS.controller_v s.
Proof.
  intros [Hnd Hlt] Hw. cbv zeta.
  destruct (generate_traffic_for_outcome t dr s d)
    as [H|(new_car & Hi & Hw0 & _ & _ & _ & H)]; rewrite H.
  - repeat split; auto.
  - simpl. repeat split; auto.
    + simpl. rewrite map_app. simpl. apply nodup_snoc; [exact Hnd|].
      intro Hin. apply in_map_iff in Hin as (c & Hc & Hin).
      specialize (Hlt c Hin). lia.
    + simpl. intros c Hin. apply in_app_or in Hin as [Hin|[<-|[]]].
      * specialize (Hlt c Hin). lia.
      * lia.
    + simpl. intros c Hin. apply in_app_or in Hin as [Hin|[<-|[]]]; [now apply Hw|].
      rewrite Hw0. lra.
Qed.

Lemma update_cars_sane (s : TS.t) :
  ids_fresh s ->
  (forall c, In c (TS.cars s) -> 0 <= Car.waiting_time c) ->
  ids_fresh (TS.update_cars s)
  /\ (forall c, In c (TS.cars (TS.update_cars s)) -> 0 <= Car.waiting_time c).
Proof.
  intros [Hnd Hlt] Hw.
  destruct (update_cars_survivors_aux s) as (Hs & Hn).
  split; [split|].
  - apply Hn, Hnd.
  - intros c' Hin. destruct (Hs c' Hin) as (_ & c & live & Hc & -> & _).
    rewrite update_id. apply Hlt, Hc.
  - intros c' Hin. destruct (Hs c' Hin) as (_ & c & live & Hc & -> & _).
    eapply Qle_trans; [apply Hw, Hc | apply waiting_time_step].
Qed.

Lemma exclusive_is_phase (ls : by_direction signal) :
  TS.exclusive ls -> exists p, ls = lights_of p.
Proof.
  unfold TS.exclusive. destruct ls as [h v]. simpl.
  intros [[Hh Hv]|[Hh Hv]]; subst.
  - destruct h; [congruence | exists H_YELLOW | exists H_GREEN]; reflexivity.
  - destruct v; [congruence | exists V_YELLOW | exists V_GREEN]; reflexivity.
Qed.

Lemma reachable_sane (control_system : Q -> Q -> outcome Q) (s : TS.t) :
  TS.reachable control_system s ->
  ids_fresh s
  /\ (forall c, In c (TS.cars s) -> 0 <= Car.waiting_time c)
  /\ 15 <= TS.current_green_duration s <= 60
  /\ TS.yellow_duration s = 4
  /\ 0 <= TS.light_timer s
  /\ TS.controller_h s = __init__ control_system "horizontal"
  /\ TS.controller_v s = __init__ control_system "vertical".
Proof.
  induction 1 as [rates | s t draws Hr IH | s s' tr Hr IH Hu | s Hr IH].
  - simpl. repeat split; try lra; try (intros c []); constructor.
  - destruct IH as (Hid & Hw & Hg & Hy & Ht & Hch & Hcv).
    change (TS.generate_traffic t draws s)
      with (TS.generate_traffic_for
              t (get draws vertical)
              (TS.generate_traffic_for t (get draws horizontal) s horizontal) vertical).
    destruct (generate_traffic_for_sane t (get draws horizontal) s horizontal Hid Hw)
      as (Hid1 & Hw1 & Hg1 & Hy1 & Ht1 & _ & Hch1 & Hcv1).
    set (s1 := TS.generate_traffic_for t (get draws horizontal) s horizontal) in *.
    destruct (generate_traffic_for_sane t (get draws vertical) s1 vertical Hid1 Hw1)
      as (Hid2 & Hw2 & Hg2 & Hy2 & Ht2 & _ & Hch2 & Hcv2).
    rewrite Hg2, Hy2, Ht2, Hch2, Hcv2, Hg1, Hy1, Ht1, Hch1, Hcv1.
    split; [exact Hid2|]. split; [exact Hw2|].
    repeat split; auto; apply Hg.
  - destruct IH as ((Hnd & Hlt) & Hw & Hg & Hy & Ht & Hch & Hcv).
    destruct (update_lights_frame s s' tr Hu)
      as (Fc & Fn & Fh & Fv & Fy & _ & _ & _ & Ftm & Fg).
    unfold ids_fresh. rewrite Fc, Fn, Fh, Fv, Fy.
    repeat split; auto.
    + destruct Fg as [->|Fg]; [apply Hg | apply Fg].
    + destruct Fg as [->|Fg]; [apply Hg | apply Fg].
    + destruct Ftm as [->| ->]; lra.
  - destruct IH as (Hid & Hw & Hg & Hy & Ht & Hch & Hcv).
    destruct (update_cars_sane s Hid Hw) as [Hid' Hw'].
    split; [exact Hid'|]. split; [exact Hw'|].
    repeat split; auto; apply Hg.
Qed.

Lemma lights_steps_reachable (control_system : Q -> Q -> outcome Q)
      (n : nat) (s : TS.t) :
  TS.reachable control_system s ->
  TS.reachable control_system (lights_steps n s).
Proof.
  intro H. induction n as [|n IH]; simpl; [exact H|].
  destruct (update_lights_returns (lights_steps n s)) as (s' & tr & Hu).
  rewrite Hu. simpl. apply (TS.reach_lights _ _ _ _ IH Hu).
Qed.

(** X10.  In every reachable state the vehicles carry pairwise distinct
    identifiers, all of them below [next_car_id]: an identifier is never
    handed out twice, also after vehicles have been dropped. *)
Theorem identifiers_stay_unique (control_system : Q -> Q -> outcome Q) (s : TS.t) :
  TS.reachable control_system s ->
  NoDup (map Car.id (TS.cars s))
  /\ forall c, In c (TS.cars s) -> (Car.id c < TS.next_car_id s)%Z.
Proof.
  intro H. apply (reachable_sane control_system s H).
Qed.

(** X11.  In every reachable state the green duration in force lies in
    [15, 60] (initially 30, then 20 or a controller result), the yellow
    duration is 4, the phase timer is not negative, the lights show one of
    the four phases, and vehicles have non-negative waiting times. *)
Theorem timing_stays_in_range (control_system : Q -> Q -> outcome Q) (s : TS.t) :
  TS.reachable control_system s ->
  15 <= TS.current_green_duration s <= 60
  /\ TS.yellow_duration s = 4
  /\ 0 <= TS.light_timer s
  /\ (exists p, TS.light_state s = lights_of p)
  /\ forall c, In c (TS.cars s) -> 0 <= Car.waiting_time c.
Proof.
  intro H.
  destruct (reachable_sane control_system s H) as (_ & Hw & Hg & Hy & Ht & _).
  repeat split; auto; try apply Hg.
  apply exclusive_is_phase, (reachable_exclusive control_system s H).
Qed.

(** X12.  Whenever the simulation calls a controller, it is the controller
    of one of the two directions, the density it passes is between 10 and
    100 and the wait is not negative: of the input clamps of
    [compute_green_time] only the upper bound on the wait can ever be
    needed.  At most one call is made per [update_lights]. *)
Theorem controller_inputs_in_simulation
        (control_system : Q -> Q -> outcome Q) (s s' : TS.t) (tr : list event) :
  TS.reachable control_system s ->
  TS.update_lights s = (Returned s', tr) ->
  (List.length (filter is_controller_call tr) <= 1)%nat
  /\ forall id density wait_time,
      In (ControllerCall id density wait_time) tr ->
      (id = "horizontal"%string \/ id = "vertical"%string)
      /\ 10 <= density <= 100
      /\ 0 <= wait_time.
Proof.
  intros Hr Hu.
  destruct (reachable_sane control_system s Hr) as (_ & Hw & _ & _ & _ & Hch & Hcv).
  destruct (update_lights_spec s) as (ls' & [d|] & _ & H).
  2:{ destruct H as (s1 & H & _). rewrite H in Hu. injection Hu as _ <-.
      split; [simpl; lia | intros ? ? ? []]. }
  destruct H as (s0 & _ & Hc & Hh & Hv & H).
  rewrite H in Hu.
  pose proof (calculate_green_time_spec s0 d) as Hs. cbv zeta in Hs.
  rewrite Hc, Hh, Hv, Hch, Hcv in Hs.
  destruct Hs as [[_ Hs]|[Hne (g & rest & _ & Hrest & report & Hrep & Hs)]];
    rewrite Hs in Hu; injection Hu as _ <-.
  { split; [simpl; lia | intros ? ? ? []]. }
  split.
  { simpl. rewrite filter_app, Hrest. simpl. rewrite Hrep. simpl. lia. }
  intros id density wait_time Hin.
  assert (Hfirst : ControllerCall id density wait_time
                   = ControllerCall
                       (light_id (match d with
                                  | horizontal => __init__ control_system "horizontal"
                                  | vertical => __init__ control_system "vertical"
                                  end))
                       (inject_Z (Z.min 100
                          (Z.of_nat (List.length (filter (TS.pending d) (TS.cars s))) * 10)))
                       (Py.sum (map Car.waiting_time (filter (TS.pending d) (TS.cars s)))
                        / inject_Z (Z.of_nat (List.length (filter (TS.pending d) (TS.cars s)))))).
  { simpl in Hin. destruct Hin as [Hin|Hin]; [now symmetry|].
    exfalso. apply in_app_or in Hin as [Hin|[Hin|[]]].
    - assert (In (ControllerCall id density wait_time) (filter is_controller_call rest))
        by (apply filter_In; split; [exact Hin | reflexivity]).
      rewrite Hrest in *. contradiction.
    - subst report. discriminate. }
  injection Hfirst as -> -> ->.
  set (l := filter (TS.pending d) (TS.cars s)) in *.
  assert (Hlen : (1 <= Z.of_nat (List.length l))%Z).
  { destruct l; [congruence | simpl List.length; lia]. }
  split; [destruct d; auto|]. split.
  - split; [change 10 with (inject_Z 10) | change 100 with (inject_Z 100)];
      rewrite <- Zle_Qle; lia.
  - apply Qle_shift_div_l.
    + change 0 with (inject_Z 0). rewrite <- Zlt_Qlt. lia.
    + rewrite Qmult_0_l. apply sum_waiting_nonneg.
      intros c Hc'. apply Hw. unfold l in Hc'. now apply filter_In in Hc'.
Qed.

(** ** More on the controller *)

Lemma clip_above (v lo hi : Q) : lo <= hi -> hi <= v -> Py.clip v lo hi = hi.
Proof.
  intros H1 H2. unfold Py.clip, Py.max.
  destruct (Py.ltb v lo) eqn:E1; [apply ltb_true in E1; lra|].
  unfold Py.min. destruct (Py.ltb v hi) eqn:E2; [apply ltb_true in E2; lra|].
  reflexivity.
Qed.

Lemma clip_below (v lo hi : Q) : lo < hi -> v < lo -> Py.clip v lo hi = lo.
Proof.
  intros H1 H2. unfold Py.clip, Py.max.
  destruct (Py.ltb v lo) eqn:E1; [|apply ltb_false in E1; lra].
  unfold Py.min. destruct (Py.ltb lo hi) eqn:E2; [|apply ltb_false in E2; lra].
  reflexivity.
Qed.

Lemma clip_idempotent (v lo hi : Q) :
  lo < hi -> Py.clip (Py.clip v lo hi) lo hi = Py.clip v lo hi.
Proof.
  intro H. destruct (Qlt_le_dec v lo) as [Hv|Hv].
  - rewrite (clip_below v lo hi H Hv).
    unfold Py.clip, Py.max, Py.min.
    destruct (Py.ltb lo lo) eqn:E1; [apply ltb_true in E1; lra|].
    destruct (Py.ltb lo hi) eqn:E2; [reflexivity | apply ltb_false in E2; lra].
  - destruct (Qlt_le_dec v hi) as [Hh|Hh].
    + assert (E : Py.clip v lo hi = v).
      { unfold Py.clip, Py.max, Py.min.
        destruct (Py.ltb v lo) eqn:E1; [apply ltb_true in E1; lra|].
        destruct (Py.ltb v hi) eqn:E2; [reflexivity | apply ltb_false in E2; lra]. }
      now rewrite !E.
    + rewrite (clip_above v lo hi) by lra. apply clip_above; lra.
Qed.

(** X13.  Clamping the inputs beforehand (as [visualize_inference] does)
    does not change what [compute_green_time] returns; an input at or
    above the upper bound of its range acts as that bound and a negative
    input as 0. *)
Theorem clamping_inputs_beforehand_is_harmless (self : t) (density wait_time : Q) :
  fst (compute_green_time self (Py.clip density 0 100) (Py.clip wait_time 0 120))
  = fst (compute_green_time self density wait_time)
  /\ (100 <= density ->
      fst (compute_green_time self density wait_time)
      = fst (compute_green_time self 100 wait_time))
  /\ (density < 0 ->
      fst (compute_green_time self density wait_time)
      = fst (compute_green_time self 0 wait_time))
  /\ (120 <= wait_time ->
      fst (compute_green_time self density wait_time)
      = fst (compute_green_time self density 120))
  /\ (wait_time < 0 ->
      fst (compute_green_time self density wait_time)
      = fst (compute_green_time self density 0)).
Proof.
  rewrite !compute_green_time_unfold.
  rewrite !clip_idempotent by lra.
  split; [destruct (simulator self _ _); reflexivity|].
  repeat split; intro H.
  - rewrite (clip_above density 0 100) by lra.
    change (Py.clip 100 0 100) with 100.
    destruct (simulator self _ _); reflexivity.
  - rewrite (clip_below density 0 100) by lra.
    change (Py.clip 0 0 100) with 0.
    destruct (simulator self _ _); reflexivity.
  - rewrite (clip_above wait_time 0 120) by lra.
    change (Py.clip 120 0 120) with 120.
    destruct (simulator self _ _); reflexivity.
  - rewrite (clip_below wait_time 0 120) by lra.
    change (Py.clip 0 0 120) with 0.
    destruct (simulator self _ _); reflexivity.
Qed.

Lemma round_half_even_close (q : Q) :
  inject_Z (Py.round_half_even q) - (1 # 2) <= q
  /\ q <= inject_Z (Py.round_half_even q) + (1 # 2).
Proof.
  destruct (round_half_even_spec q) as [[H1 H2] _].
  set (k := Py.round_half_even q) in *.
  destruct q as [n d]. cbn [Qnum Qden] in H1, H2.
  unfold Qle, Qminus, Qplus, Qopp, inject_Z. simpl.
  split; nia.
Qed.

(** X14.  When the simulation object returns, the value handed back is a
    whole number of tenths between 15.0 and 60.0 and differs from the
    clamped raw output by at most 0.05. *)
Theorem result_is_raw_output_to_one_decimal
        (self : t) (density wait_time raw : Q) :
  simulator self (Py.clip density 0 100) (Py.clip wait_time 0 120) = Returned raw ->
  exists (g : Q) (k : Z),
    fst (compute_green_time self density wait_time) = Returned g
    /\ g = inject_Z k / 10
    /\ (150 <= k <= 600)%Z
    /\ Qabs (g - Py.clip raw 15 60) <= 0.05.
Proof.
  intro H. rewrite compute_green_time_unfold, H. simpl fst.
  set (c := Py.clip raw MIN_GREEN_TIME MAX_GREEN_TIME).
  exists (Py.round1 c), (Py.round_half_even (c * 10)).
  split; [reflexivity|]. split; [reflexivity|].
  pose proof (rounded_clamp_in_range raw) as [B1 B2]. fold c in B1, B2.
  destruct (round_half_even_close (c * 10)) as [C1 C2].
  unfold Py.round1 in *. unfold MIN_GREEN_TIME, MAX_GREEN_TIME in B1, B2.
  set (k := Py.round_half_even (c * 10)) in *.
  unfold Qdiv in *. change (/ 10) with (1 # 10) in *.
  split.
  - split; rewrite Zle_Qle;
      [change (inject_Z 150) with 150 | change (inject_Z 600) with 600]; lra.
  - change (Py.clip raw 15 60) with c.
    apply Qabs_Qle_condition. split; lra.
Qed.

(** ** The rule base *)

(** X15.  The nine rules form a complete and unambiguous table: every
    pair of a density term and a wait term has exactly one consequent.
    The table is monotone: raising the density term or the wait term
    never lowers the green term. *)
Theorem rule_base_is_a_monotone_table :
  List.length InferenceEngine._create_fuzzy_rules = 9%nat
  /\ (forall dt wt,
         exists g,
           In (InferenceEngine.mkRule dt wt g) InferenceEngine._create_fuzzy_rules
           /\ forall g',
               In (InferenceEngine.mkRule dt wt g') InferenceEngine._create_fuzzy_rules ->
               g' = g)
  /\ (forall r1 r2,
         In r1 InferenceEngine._create_fuzzy_rules ->
         In r2 InferenceEngine._create_fuzzy_rules ->
         (density_rank (InferenceEngine.if_density r1)
          <= density_rank (InferenceEngine.if_density r2))%nat ->
         (wait_rank (InferenceEngine.if_wait r1)
          <= wait_rank (InferenceEngine.if_wait r2))%nat ->
         (green_rank (InferenceEngine.then_green r1)
          <= green_rank (InferenceEngine.then_green r2))%nat).
Proof.
  split; [reflexivity|]. split.
  - intros dt wt.
    destruct dt, wt; eexists; (split; [simpl; auto 20|]);
      intros g' Hin; simpl in Hin;
      repeat (destruct Hin as [Hin|Hin]; [try discriminate; now inversion Hin|]);
      destruct Hin.
  - intros r1 r2 H1 H2. simpl in H1, H2.
    repeat (destruct H1 as [H1|H1]; [subst r1|]); try destruct H1;
      repeat (destruct H2 as [H2|H2]; [subst r2|]); try destruct H2;
      simpl; lia.
Qed.

(** ** Order of the vehicle list *)

Lemma is_too_close_existsb (c : Car.t) (l : list Car.t) :
  Car.is_too_close_to_car_ahead c l = existsb (Car.too_close_to c) l.
Proof.
  induction l as [|o l IH]; simpl; [reflexivity|].
  rewrite IH. destruct (Car.too_close_to c o); reflexivity.
Qed.

Lemma existsb_permutation {A} (f : A -> bool) (l l' : list A) :
  Permutation l l' -> existsb f l = existsb f l'.
Proof.
  induction 1; simpl; try congruence.
  - destruct (f y), (f x); reflexivity.
Qed.

Lemma spawn_blocked_existsb (cars : list Car.t) (new_car : Car.t) :
  TS.spawn_blocked_by cars new_car
  = existsb (fun car => TS.spawn_blocked_by [car] new_car) cars.
Proof.
  induction cars as [|c l IH]; simpl; [reflexivity|]. rewrite IH.
  destruct (negb _); simpl; [reflexivity|].
  destruct (Py.ltb _ _); reflexivity.
Qed.

(** X16.  The spacing check and the spawn check read the vehicle list as
    a set: their verdicts do not depend on the order of the list (unlike
    the result of [update_cars], which does). *)
Theorem checks_ignore_list_order (c : Car.t) (l l' : list Car.t) :
  Permutation l l' ->
  Car.is_too_close_to_car_ahead c l = Car.is_too_close_to_car_ahead c l'
  /\ TS.spawn_blocked_by l c = TS.spawn_blocked_by l' c.
Proof.
  intro H. split.
  - rewrite !is_too_close_existsb. now apply existsb_permutation.
  - rewrite (spawn_blocked_existsb l), (spawn_blocked_existsb l').
    now apply existsb_permutation.
Qed.

(** ** Instances of the further properties *)

Lemma never_runs_the_light_witness :
  Qabs (Car.max_speed approaching) <= Car.STOP_LINE_OFFSET
  /\ before_stop_line approaching = true
  /\ before_stop_line (car_after approaching three_ticks_without_green) = true.
Proof.
  assert (H1 : Qabs (Car.max_speed approaching) <= Car.STOP_LINE_OFFSET)
    by (vm_compute; discriminate).
  assert (H2 : forall e, In e three_ticks_without_green -> fst e <> GREEN).
  { intros e [<-|[<-|[<-|[]]]]; discriminate. }
  assert (H3 : before_stop_line approaching = true) by reflexivity.
  split; [exact H1|]. split; [exact H3|].
  apply (never_runs_the_light approaching three_ticks_without_green H1 H2 H3).
Defined.

Lemma headway_is_kept_witness :
  Car.MIN_SPACING - Car.MAX_SPEED <= headway follower leader
  /\ Car.MIN_SPACING - Car.MAX_SPEED
     <= headway (Car.update follower GREEN [leader; follower]) leader.
Proof.
  assert (H1 : In leader [leader; follower]) by (now left).
  assert (H2 : Car.id leader <> Car.id follower) by (vm_compute; discriminate).
  assert (H3 : Car.direction leader = Car.direction follower) by reflexivity.
  assert (H4 : same_lane follower leader = true) by reflexivity.
  assert (H5 : Qabs (Car.max_speed follower) <= Car.MAX_SPEED)
    by (vm_compute; discriminate).
  assert (H6 : Car.MIN_SPACING - Car.MAX_SPEED <= headway follower leader)
    by (vm_compute; discriminate).
  split; [exact H6|].
  apply (proj1 (headway_is_kept follower leader GREEN [leader; follower]
                                H1 H2 H3 H4 H5 H6)).
Defined.

Lemma distant_spawn_is_dropped_witness :
  (103 <= 200)%Z
  /\ Car.is_off_screen
       (Car.update (Car.__init__ east 0 horizontal 0 200) GREEN []) = true.
Proof.
  assert (H : (103 <= 200)%Z) by lia.
  split; [exact H|].
  apply (proj1 (distant_spawn_is_dropped east 0 horizontal 0 200
                                         (ByDirection GREEN RED) H)).
Defined.

Lemma lights_follow_the_cycle_witness :
  TS.light_state yellow_phase_end = lights_of H_YELLOW
  /\ TS.update_lights yellow_phase_end
     = (Returned after_yellow_phase, snd (TS.update_lights yellow_phase_end))
  /\ TS.light_state after_yellow_phase = lights_of V_GREEN.
Proof.
  assert (H1 : TS.light_state yellow_phase_end = lights_of H_YELLOW) by reflexivity.
  assert (H2 : TS.update_lights yellow_phase_end
               = (Returned after_yellow_phase, snd (TS.update_lights yellow_phase_end)))
    by (vm_compute; reflexivity).
  split; [exact H1|]. split; [exact H2|].
  destruct (lights_follow_the_cycle yellow_phase_end after_yellow_phase _ H_YELLOW H1 H2)
    as [(_ & H & _)|(Hlt & _)].
  - exact H.
  - exfalso. vm_compute in Hlt. discriminate.
Defined.

Lemma display_shows_previous_state_witness :
  TS.update_lights yellow_phase_end
  = (Returned after_yellow_phase, snd (TS.update_lights yellow_phase_end))
  /\ TrafficLight.state (get (TS.lights after_yellow_phase) horizontal) = YELLOW
  /\ get (TS.light_state after_yellow_phase) horizontal = RED.
Proof.
  assert (H : TS.update_lights yellow_phase_end
              = (Returned after_yellow_phase, snd (TS.update_lights yellow_phase_end)))
    by (vm_compute; reflexivity).
  split; [exact H|]. split; [|reflexivity].
  apply (proj1 (display_shows_previous_state yellow_phase_end after_yellow_phase
                                             _ horizontal H)).
Defined.

Lemma identifiers_stay_unique_witness :
  TS.reachable (fun _ _ => Returned 42) (TS.update_cars busy_state)
  /\ map Car.id (TS.cars (TS.update_cars busy_state)) = [0; 1]%Z
  /\ TS.next_car_id (TS.update_cars busy_state) = 2%Z
  /\ NoDup (map Car.id (TS.cars (TS.update_cars busy_state)))
  /\ forall c, In c (TS.cars (TS.update_cars busy_state)) ->
               (Car.id c < TS.next_car_id (TS.update_cars busy_state))%Z.
Proof.
  assert (H : TS.reachable (fun _ _ => Returned 42) (TS.update_cars busy_state)).
  { apply TS.reach_cars. apply TS.reach_generate. apply TS.reach_init. }
  split; [exact H|]. split; [reflexivity|]. split; [reflexivity|].
  apply (identifiers_stay_unique _ _ H).
Defined.

Lemma timing_stays_in_range_witness :
  TS.reachable (fun _ _ => Returned 42) start_of_vertical_green
  /\ TS.light_state start_of_vertical_green = lights_of V_GREEN
  /\ TS.current_green_duration start_of_vertical_green == 42
  /\ List.length (TS.cars start_of_vertical_green) = 2%nat
  /\ 15 <= TS.current_green_duration start_of_vertical_green <= 60.
Proof.
  assert (H : TS.reachable (fun _ _ => Returned 42) start_of_vertical_green).
  { apply lights_steps_reachable. apply TS.reach_generate. apply TS.reach_init. }
  split; [exact H|]. split; [vm_compute; reflexivity|].
  split; [vm_compute; reflexivity|]. split; [vm_compute; reflexivity|].
  apply (proj1 (timing_stays_in_range _ _ H)).
Defined.

Lemma controller_inputs_in_simulation_witness :
  TS.reachable (fun _ _ => Returned 42) end_of_first_yellow
  /\ TS.update_lights end_of_first_yellow
     = (Returned start_of_vertical_green, snd (TS.update_lights end_of_first_yellow))
  /\ In (ControllerCall "vertical" (inject_Z 10) (Py.sum [0] / inject_Z 1))
        (snd (TS.update_lights end_of_first_yellow))
  /\ 10 <= inject_Z 10 <= 100
  /\ 0 <= Py.sum [0] / inject_Z 1.
Proof.
  assert (H1 : TS.reachable (fun _ _ => Returned 42) end_of_first_yellow).
  { apply lights_steps_reachable. apply TS.reach_generate. apply TS.reach_init. }
  assert (H2 : TS.update_lights end_of_first_yellow
               = (Returned start_of_vertical_green,
                  snd (TS.update_lights end_of_first_yellow)))
    by (vm_compute; reflexivity).
  assert (H3 : In (ControllerCall "vertical" (inject_Z 10) (Py.sum [0] / inject_Z 1))
                  (snd (TS.update_lights end_of_first_yellow)))
    by (vm_compute; left; reflexivity).
  split; [exact H1|]. split; [exact H2|]. split; [exact H3|].
  apply (proj2 (controller_inputs_in_simulation _ _ _ _ H1 H2) _ _ _ H3).
Defined.

Lemma result_is_raw_output_to_one_decimal_witness :
  simulator steady_controller (Py.clip 50 0 100) (Py.clip 60 0 120) = Returned 42
  /\ exists (g : Q) (k : Z),
      fst (compute_green_time steady_controller 50 60) = Returned g
      /\ g = inject_Z k / 10
      /\ (150 <= k <= 600)%Z
      /\ Qabs (g - Py.clip 42 15 60) <= 0.05.
Proof.
  assert (H : simulator steady_controller (Py.clip 50 0 100) (Py.clip 60 0 120)
              = Returned 42) by reflexivity.
  split; [exact H|].
  apply (result_is_raw_output_to_one_decimal steady_controller 50 60 42 H).
Defined.

Lemma checks_ignore_list_order_witness :
  Permutation [leader; follower] [follower; leader]
  /\ Car.is_too_close_to_car_ahead follower [leader; follower]
     = Car.is_too_close_to_car_ahead follower [follower; leader].
Proof.
  assert (H : Permutation [leader; follower] [follower; leader])
    by apply perm_swap.
  split; [exact H|].
  apply (proj1 (checks_ignore_list_order follower _ _ H)).
Defined.
